(** * Cross-model comparison scripts of the asymptotic pouch-cell repository

    A shallow embedding of the array and closure logic of
    [compare_models.py], [supplementary/plot_discharge_curve.py] and
    [supplementary/plot_potentials_concentrations.py]: the DFNCC corrected
    voltage, the broadcast of laterally uniform series over the
    current-collector axis, the re-referencing of collector potentials, the
    COMSOL adapter [get_interp_fun] and the voltage cut-off restriction. *)

From Stdlib Require Import ZArith Ring PrimFloat.
From stdpp Require Import gmap strings list.

(** ** Scalars

    The scripts compute on NumPy [float64] values.  Every definition below is
    written against an arbitrary scalar type carrying the operations the
    scripts use, so that structural facts (shapes, broadcasts, which sample
    lands where) hold whatever the arithmetic is, on [float64] in
    particular.  [ExactScalar] records the ring laws of exact arithmetic,
    under which a shared offset always cancels. *)

Class Scalar (F : Type) := {
  s_add : F → F → F;
  s_sub : F → F → F;
  s_mul : F → F → F;
  s_abs : F → F;
  s_ltb : F → F → bool;
  s_eqb : F → F → bool;
}.

Infix "⊕" := s_add (at level 50, left associativity).
Infix "⊖" := s_sub (at level 50, left associativity).
Infix "⊗" := s_mul (at level 40, left associativity).

(** [a > b] as NumPy writes it. *)
Definition s_gtb `{Scalar F} (a b : F) : bool := s_ltb b a.

(** Exact arithmetic: the scalar operations obey the laws of a commutative
    ring.  [float64] is not an instance. *)
Class ExactScalar (F : Type) `{Scalar F} := {
  s_zero : F;
  s_one : F;
  s_opp : F → F;
  s_ring : ring_theory s_zero s_one s_add s_mul s_sub s_opp (@eq F);
}.

#[export] Instance Z_scalar : Scalar Z := {|
  s_add := Z.add; s_sub := Z.sub; s_mul := Z.mul; s_abs := Z.abs;
  s_ltb := Z.ltb; s_eqb := Z.eqb
|}.

#[export] Instance Z_exact : ExactScalar Z := {|
  s_zero := 0%Z; s_one := 1%Z; s_opp := Z.opp; s_ring := Zth
|}.

(** The scalars of the scripts themselves: IEEE 754 binary64. *)
#[export] Instance float64_scalar : Scalar float := {|
  s_add := PrimFloat.add; s_sub := PrimFloat.sub; s_mul := PrimFloat.mul;
  s_abs := PrimFloat.abs; s_ltb := PrimFloat.ltb; s_eqb := PrimFloat.eqb
|}.

(** ** NumPy arrays

    A one-dimensional array is a list.  A two-dimensional array carries its
    shape next to its rows, because NumPy keeps the column count of an array
    without rows and the row count of an array without columns. *)

Record array2 (F : Type) := Array2 {
  shape0 : nat;
  shape1 : nat;
  rows : list (list F);
}.
Arguments Array2 {F} _ _ _.
Arguments shape0 {F} _.
Arguments shape1 {F} _.
Arguments rows {F} _.

Definition array2_wf {F} (A : array2 F) : Prop :=
  length (rows A) = shape0 A ∧ Forall (λ r, length r = shape1 A) (rows A).

(** [A[j, i]] *)
Definition entry {F} (A : array2 F) (j i : nat) : option F :=
  rows A !! j ≫= (.!! i).

(** [A.size] *)
Definition size2 {F} (A : array2 F) : nat := shape0 A * shape1 A.

(** [a[:, np.newaxis]] for a one-dimensional [a]: shape [(n,)] to [(n, 1)]. *)
Definition newaxis_col {F} (a : list F) : array2 F :=
  Array2 (length a) 1 ((λ x, [x]) <$> a).

(** [np.repeat(A, k, axis=0)]: every row [k] times in a row. *)
Definition np_repeat0 {F} (k : nat) (A : array2 F) : array2 F :=
  Array2 (shape0 A * k) (shape1 A) (rows A ≫= replicate k).

(** [np.repeat(A, k, axis=1)]: inside every row, every entry [k] times. *)
Definition np_repeat1 {F} (k : nat) (A : array2 F) : array2 F :=
  Array2 (shape0 A) (shape1 A * k) ((λ r, r ≫= replicate k) <$> rows A).

(** [np.transpose(A)] of a two-dimensional array. *)
Definition np_transpose {F} (A : array2 F) : array2 F :=
  Array2 (shape1 A) (shape0 A)
         ((λ i, omap (.!! i) (rows A)) <$> seq 0 (shape1 A)).

(** [A - c] for a scalar [c]. *)
Definition sub_scalar `{Scalar F} (A : array2 F) (c : F) : array2 F :=
  Array2 (shape0 A) (shape1 A) ((λ r : list F, (λ x, x ⊖ c) <$> r) <$> rows A).

(** [A[:, a:b]] *)
Definition col_slice {F} (a b : nat) (A : array2 F) : array2 F :=
  Array2 (shape0 A) (Nat.min b (shape1 A) - a)
         ((λ r, drop a (take b r)) <$> rows A).

(** What a call of a processed variable returns: a NumPy array of one or of
    two dimensions. *)
Inductive ndarray (F : Type) := Arr1 (a : list F) | Arr2 (A : array2 F).
Arguments Arr1 {F} _.
Arguments Arr2 {F} _.

(** [X.shape] *)
Definition nd_shape {F} (X : ndarray F) : list nat :=
  match X with
  | Arr1 a => [length a]
  | Arr2 A => [shape0 A; shape1 A]
  end.

(** [X.ravel()]: the entries in row-major order. *)
Definition nd_values {F} (X : ndarray F) : list F :=
  match X with
  | Arr1 a => a
  | Arr2 A => concat (rows A)
  end.

(** [X - c] for a scalar [c]. *)
Definition nd_sub_scalar `{Scalar F} (X : ndarray F) (c : F) : ndarray F :=
  match X with
  | Arr1 a => Arr1 ((λ x, x ⊖ c) <$> a)
  | Arr2 A => Arr2 (sub_scalar A c)
  end.



(** Subtracting [c] on both sides leaves the difference of every pair of
    corresponding entries of [U] and [V] as it was. *)
Definition offset_cancels `{Scalar F} (c : F) (U V : ndarray F) : Prop :=
  Forall (λ ab, (ab.1 ⊖ c) ⊖ (ab.2 ⊖ c) = ab.1 ⊖ ab.2)
         (zip (nd_values U) (nd_values V)).

(** ** Samplers

    A processed variable without spatial dependence is an interpolant in
    time; called on an array of times it answers entry by entry, with the
    shape of its argument. *)
Definition sample0 {F} (f : F → F) (t : list F) : list F := f <$> t.

(** A processed variable over the current-collector axis, called with a
    vector of times and a vector of positions, answers on the grid with one
    row per position and one column per time. *)
Definition sample_tz {F} (f : F → F → F) (t z : list F) : array2 F :=
  Array2 (length z) (length t) ((λ zj, (λ ti, f ti zj) <$> t) <$> z).

(** ** Python exceptions and fallible results *)

Inductive exn :=
  IndexError | KeyError | UnboundLocalError | ValueError | DomainError.

Inductive result (A : Type) := Ok (a : A) | Raise (e : exn).
Arguments Ok {A} _.
Arguments Raise {A} _.

Definition result_bind {A B} (r : result A) (f : A → result B) : result B :=
  match r with Ok a => f a | Raise e => Raise e end.

Definition from_option {A} (e : exn) (o : option A) : result A :=
  match o with Some a => Ok a | None => Raise e end.

(** [A - v] for a two-dimensional [A] of shape [(m, n)] and a one-dimensional
    [v] of shape [(k,)], by NumPy's broadcasting rule: [v] is read as one row
    and stretched over the rows of [A]; the trailing lengths must agree unless
    one of them is 1. *)
Definition np_sub_broadcast `{Scalar F} (A : array2 F) (v : list F)
  : result (array2 F) :=
  if decide (shape1 A = length v) then
    Ok (Array2 (shape0 A) (shape1 A) ((λ r, zip_with s_sub r v) <$> rows A))
  else match v with
  | [c] => Ok (sub_scalar A c)
  | _ =>
    if decide (shape1 A = 1) then
      Ok (Array2 (shape0 A) (length v)
            ((λ r : list F, r ≫= (λ x, (λ c, x ⊖ c) <$> v)) <$> rows A))
    else Raise ValueError
  end.

(** ** Collector potentials, [compare_models.py] lines 102-223 *)
Module Potentials.
Section defs.
Context `{Scalar F}.

(** Line 103-105: the effective resistance is entry [[0][0]] of the
    evaluated symbol. *)
Definition R_cc_of (evaluated : array2 F) : result F :=
  from_option IndexError (entry evaluated 0 0).

(** The module-level names the closures below read when they are called.
    Python looks a global up at call time, so a closure sees the binding
    current at the call, not the one current at its definition. *)
Record globals := Globals {
  V_av_1D : F → F;
  I_av : F → F;
  R_cc : F;
  pot_scale : F;
  U_p_ref : F;
  U_n_ref : F;
  pybamm_bar_var : F → F → F;
}.

(** Line 121-122. *)
Definition V_av (g : globals) (t : list F) : list F :=
  zip_with s_sub (sample0 (V_av_1D g) t)
           ((λ x, x ⊗ R_cc g) <$> sample0 (I_av g) t).

(** Line 199-201. *)
Definition U_ref (g : globals) : F := U_p_ref g ⊖ U_n_ref g.

(** Line 204-205. *)
Definition V_av_dim (g : globals) (t : list F) : list F :=
  (λ v, U_ref g ⊕ v ⊗ pot_scale g) <$> V_av g t.

(** Lines 103-201 in order: the bindings in force while the two collector
    potentials are plotted.  [evaluated] is the evaluated resistance symbol,
    [V_terminal] and [I_total] are the processed terminal voltage and total
    current density of the averaged model, [potentials_var] is the processed
    positive-collector potential. *)
Definition globals_at_potential_plots (evaluated : array2 F)
    (V_terminal I_total : F → F) (scale U_p U_n : F)
    (potentials_var : F → F → F) : result globals :=
  result_bind (R_cc_of evaluated) (λ R,
    Ok (Globals V_terminal I_total R scale U_p U_n potentials_var)).

(** Line 240: [I_av] is bound anew, to the current density of the averaged
    model. *)
Definition rebind_I_av (g : globals) (f : F → F) : globals :=
  Globals (V_av_1D g) f (R_cc g) (pot_scale g) (U_p_ref g) (U_n_ref g)
          (pybamm_bar_var g).
End defs.
Arguments globals F : clear implicits.
End Potentials.

(** Negative collector, lines 130-156: the processed potential is handed to
    the plot as it is. *)
Module NegativeCollector.
Section defs.
Context `{Scalar F}.
(** [potentials["Negative current collector potential [V]"]] *)
Variable potentials_var : F → F → F.

Definition pybamm_bar_var_fun (t z : list F) : array2 F :=
  sample_tz potentials_var t z.
End defs.
End NegativeCollector.

(** Positive collector, lines 158-223. *)
Module PositiveCollector.
Section defs.
Context `{Scalar F}.

(** Lines 208-209. *)
Definition pybamm_bar_var_fun (g : Potentials.globals F) (t z : list F)
  : result (array2 F) :=
  np_sub_broadcast (sample_tz (Potentials.pybamm_bar_var g) t z)
                   (Potentials.V_av_dim g t).
End defs.
End PositiveCollector.

(** The rescaling rule as the specification words it. *)
Definition to_dimensional_potential `{Scalar F}
    (reference_offset potential_scale phi_nondim : F) : F :=
  reference_offset ⊕ phi_nondim ⊗ potential_scale.

(** ** Through-cell current, [compare_models.py] lines 240-252 *)
Module Current.
Section defs.
Context `{Scalar F}.
(** [I_av] as rebound on line 240: the current-collector current density
    of the averaged model. *)
Variable I_av : F → F.

Definition pybamm_bar_var_fun (t z : list F) : array2 F :=
  if decide (length t = 1)
  then np_repeat0 (length z) (newaxis_col (sample0 I_av t))
  else np_transpose (np_repeat1 (length z) (newaxis_col (sample0 I_av t))).

(** The two arms of the conditional, on their own. *)
Definition single_instant_path (t z : list F) : array2 F :=
  np_repeat0 (length z) (newaxis_col (sample0 I_av t)).
Definition general_path (t z : list F) : array2 F :=
  np_transpose (np_repeat1 (length z) (newaxis_col (sample0 I_av t))).
End defs.
End Current.

(** ** Lumped temperature, [compare_models.py] lines 269-307 *)
Module Temperature.
Section defs.
Context `{Scalar F}.
Variable T_ref : F.
(** The calls [comsol_var(t=t, z=z)] and [pybamm_var(t=t, z=z)] of the two
    processed variables: each raises or returns an array. *)
Variables comsol_var pybamm_var : list F → list F → result (ndarray F).
Variable T_av : F → F.



(** Lines 303-307. *)

Definition pybamm_bar_var_fun (t z : list F) : array2 F :=
  if decide (length t = 1)
  then sub_scalar (np_repeat0 (length z) (newaxis_col (sample0 T_av t))) T_ref
  else sub_scalar
         (np_transpose (np_repeat1 (length z) (newaxis_col (sample0 T_av t))))
         T_ref.
End defs.
End Temperature.

(** ** [scipy.interpolate.interp1d], as far as the scripts rely on it *)
Module Scipy.

(** The [kind] argument of [scipy.interpolate.interp1d]. *)
Inductive kind := Linear | Cubic.

(** The axis of the values an interpolation runs along. *)
Inductive axis := Axis0 | AxisLast.

(** One construction-and-call of [interp1d], as the interpreter sees it. *)
Record interp_call (F : Type) := InterpCall {
  ic_axis : axis;
  ic_kind : kind;
  ic_x : list F;
  ic_x_new : list F;
}.
Arguments InterpCall {F} _ _ _ _.
Arguments ic_axis {F} _.
Arguments ic_kind {F} _.
Arguments ic_x {F} _.
Arguments ic_x_new {F} _.

(** Computations that may raise and that record the interpolations they
    run, in order. *)
Definition traced (F A : Type) : Type := list (interp_call F) * result A.

Definition t_ret {F A} (a : A) : traced F A := ([], Ok a).

Definition t_bind {F A B} (m : traced F A) (f : A → traced F B) : traced F B :=
  match m with
  | (l, Ok a) => let '(l', r) := f a in (l ++ l', r)
  | (l, Raise e) => (l, Raise e)
  end.

Definition t_lift {F A} (r : result A) : traced F A := ([], r).

Definition t_log {F} (c : interp_call F) : traced F unit := ([c], Ok tt).

Notation "x ←ₜ m ;; k" := (t_bind m (λ x, k))
  (at level 100, m at next level, right associativity,
   format "x  ←ₜ  m ;;  '/' k").

Fixpoint t_mapM {F A B} (f : A → traced F B) (l : list A) : traced F (list B) :=
  match l with
  | [] => t_ret []
  | a :: l' => b ←ₜ f a ;; bs ←ₜ t_mapM f l' ;; t_ret (b :: bs)
  end.

Definition trace {F A} (m : traced F A) : list (interp_call F) := m.1.
Definition outcome {F A} (m : traced F A) : result A := m.2.

(** The order of the spline a kind stands for. *)
Definition order (k : kind) : nat :=
  match k with Linear => 1 | Cubic => 3 end.

(** [interp1d] refuses fewer knots than the order of the spline plus one,
    and knots that are not all different. *)
Definition min_entries (k : kind) : nat := order k + 1.

Section defs.
Context `{Scalar F}.

(** The interpolant [interp1d] builds: [spline k x y q] is the value at [q]
    of the order-[k] spline through the knots [x] with values [y]. *)
Variable spline : kind → list F → list F → F → F.

(** A query outside the knots: below all of them or above all of them. *)
Definition out_of_bounds (x : list F) (q : F) : bool :=
  forallb (λ xi, s_ltb q xi) x || forallb (λ xi, s_ltb xi q) x.

(** Two of the knots are equal. *)
Fixpoint repeated_knots (x : list F) : bool :=
  match x with
  | [] => false
  | a :: x' => existsb (s_eqb a) x' || repeated_knots x'
  end.

(** [A[:, c]] *)
Definition column (c : nat) (A : array2 F) : list F := omap (.!! c) (rows A).

(** [interp1d(x, y, axis=0, kind=k)(x_new)] for [y] of shape
    [(len(x), m)]: the result has shape [(len(x_new), m)]. *)
Definition interp1d_axis0 (k : kind) (x : list F) (y : array2 F)
    (x_new : list F) : traced F (array2 F) :=
  _ ←ₜ t_log (InterpCall Axis0 k x x_new) ;;
  if decide (shape0 y ≠ length x) then t_lift (Raise ValueError)
  else if decide (length x < min_entries k) then t_lift (Raise ValueError)
  else if repeated_knots x then t_lift (Raise ValueError)
  else if existsb (out_of_bounds x) x_new then t_lift (Raise ValueError)
  else t_ret (Array2 (length x_new) (shape1 y)
                ((λ q, (λ c, spline k x (column c y) q) <$> seq 0 (shape1 y))
                   <$> x_new)).

(** [interp1d(x, y, kind=k)(t)] for [y] of shape [(m, len(x))] and a scalar
    [t]: the default axis is the last one, the result has shape [(m,)]. *)
Definition interp1d_last (k : kind) (x : list F) (y : array2 F) (t : F)
    : traced F (list F) :=
  _ ←ₜ t_log (InterpCall AxisLast k x [t]) ;;
  if decide (shape1 y ≠ length x) then t_lift (Raise ValueError)
  else if decide (length x < min_entries k) then t_lift (Raise ValueError)
  else if repeated_knots x then t_lift (Raise ValueError)
  else if out_of_bounds x t then t_lift (Raise ValueError)
  else t_ret ((λ r, spline k x r t) <$> rows y).

(** [interp1d(x, y, kind=k)(x_new)] for one-dimensional [y] and
    [x_new]: the result has the shape of [x_new]. *)
Definition interp1d_vec (k : kind) (x y x_new : list F) : traced F (list F) :=
  _ ←ₜ t_log (InterpCall AxisLast k x x_new) ;;
  if decide (length y ≠ length x) then t_lift (Raise ValueError)
  else if decide (length x < min_entries k) then t_lift (Raise ValueError)
  else if repeated_knots x then t_lift (Raise ValueError)
  else if existsb (out_of_bounds x) x_new then t_lift (Raise ValueError)
  else t_ret (spline k x y <$> x_new).
End defs.
End Scipy.

(** ** [supplementary/plot_discharge_curve.py], lines 68-107 *)
Module DischargeCurve.
Import Scipy.

(** Line 68. *)
Definition interp_kind : kind := Cubic.

(** Line 62 builds a [CasadiSolver]; the restriction is guarded by an
    [isinstance] test on it. *)
Inductive solver := CasadiSolver | OtherSolver.

(** [a[mask]] for a boolean [mask] as long as [a]. *)
Fixpoint bool_index {A} (a : list A) (mask : list bool) : list A :=
  match a, mask with
  | x :: a', b :: mask' =>
      if b then x :: bool_index a' mask' else bool_index a' mask'
  | _, _ => []
  end.

(** [np.count_nonzero(mask)] *)
Fixpoint count_true (mask : list bool) : nat :=
  match mask with
  | [] => 0
  | b :: mask' => (if b then 1 else 0) + count_true mask'
  end.

(** Once a sample is at or below the cut-off, no later sample is above it:
    the series crosses the cut-off at most once, from above. *)
Fixpoint never_recovers (mask : list bool) : bool :=
  match mask with
  | [] => true
  | true :: mask' => never_recovers mask'
  | false :: mask' => forallb negb mask'
  end.

Section defs.
Context `{Scalar F}.

(** [voltage > V_cutoff] *)
Definition above_cutoff (voltage : list F) (V_cutoff : F) : list bool :=
  (λ v, s_gtb v V_cutoff) <$> voltage.

(** Line 106. *)
Definition voltage_OK (voltage : list F) (V_cutoff : F) : list F :=
  bool_index voltage (above_cutoff voltage V_cutoff).

(** Lines 95-107: [terminal_voltage] is the processed terminal voltage,
    [time] the solution's time vector. *)
Definition restrict_time (slv : solver) (terminal_voltage : F → F)
    (V_cutoff : F) (time : list F) : list F :=
  match slv with
  | CasadiSolver =>
      let voltage := sample0 terminal_voltage time in
      take (length (voltage_OK voltage V_cutoff)) time
  | OtherSolver => time
  end.

(** Lines 76-78 and 128: the reference voltage, interpolated in time and
    read at the dimensional times [time * tau]. *)
Definition comsol_voltage (spline : kind → list F → list F → F → F)
    (comsol_t voltage : list F) (tau : F) (time : list F)
    : traced F (list F) :=
  interp1d_vec spline interp_kind comsol_t voltage ((λ t, t ⊗ tau) <$> time).

(** What an index-based mask would keep instead: [time[voltage > V_cutoff]]. *)
Definition masked_time (terminal_voltage : F → F) (V_cutoff : F)
    (time : list F) : list F :=
  bool_index time (above_cutoff (sample0 terminal_voltage time) V_cutoff).
End defs.
End DischargeCurve.

(** ** The COMSOL adapter,
    [supplementary/plot_potentials_concentrations.py] lines 63-97 *)
Module ComsolAdapter.
Import Scipy.

(** The reference data set: the pickled dictionary, read by the type of its
    entries. *)
Record comsol_data (F : Type) := ComsolData {
  cv_time : list F;                    (* ["time"] *)
  cv_coords : gmap string (list F);    (* ["x"], ["x_n"], ["x_s"], ["x_p"] *)
  cv_fields : gmap string (array2 F);  (* matrices indexed [space, time] *)
}.
Arguments ComsolData {F} _ _ _.
Arguments cv_time {F} _.
Arguments cv_coords {F} _.
Arguments cv_fields {F} _.

Record submesh (F : Type) := SubMesh { nodes : list F; edges : list F }.
Arguments SubMesh {F} _ _.
Arguments nodes {F} _.
Arguments edges {F} _.

(** The [pybamm.Function] that [get_interp_fun] returns: the closure
    [myinterp] with the [variable] it captured, its domain and its name. *)
Record pybamm_function (F : Type) := PybammFunction {
  fn_variable : array2 F;
  fn_domain : list string;
  fn_name : string;
}.
Arguments PybammFunction {F} _ _ _.
Arguments fn_variable {F} _.
Arguments fn_domain {F} _.
Arguments fn_name {F} _.

(** Line 63. *)
Definition whole_cell : list string :=
  ["negative electrode"; "separator"; "positive electrode"].

(** Line 66. *)
Definition interp_kind : kind := Cubic.

Section defs.
Context `{Scalar F}.

Variable spline : kind → list F → list F → F → F.

Variable comsol_variables : comsol_data F.
(** [mesh.combine_submeshes( *domain)[0]]: the call raises or returns a
    submesh. *)
Variable mesh : list string → result (submesh F).
Variables (L_x tau : F).

(** Lines 76-83: the chain of tests that binds [comsol_x], or leaves it
    unbound when no test holds. *)
Definition select_comsol_x (domain : list string) : result (option (list F)) :=
  let get name :=
    result_bind (from_option KeyError (cv_coords comsol_variables !! name))
                (λ x, Ok (Some x)) in
  if decide (domain = ["negative electrode"]) then get "x_n"
  else if decide (domain = ["separator"]) then get "x_s"
  else if decide (domain = ["positive electrode"]) then get "x_p"
  else if decide (domain = whole_cell) then get "x"
  else Ok None.

(** Lines 85-88. *)
Definition select_pybamm_x (domain : list string) (eval_on_edges : bool)
    : result (list F) :=
  result_bind (mesh domain) (λ sub,
    Ok ((λ x, x ⊗ L_x) <$> (if eval_on_edges then edges sub else nodes sub))).

(** Lines 91-92. *)
Definition myinterp (variable : array2 F) (t : F) : traced F (array2 F) :=
  v ←ₜ interp1d_last spline interp_kind (cv_time comsol_variables) variable t ;;
  t_ret (newaxis_col v).

(** Lines 69-97. *)
Definition get_interp_fun (variable_name : string) (domain : list string)
    (eval_on_edges : bool) : traced F (pybamm_function F) :=
  variable ←ₜ t_lift (from_option KeyError
                        (cv_fields comsol_variables !! variable_name)) ;;
  comsol_x ←ₜ t_lift (select_comsol_x domain) ;;
  pybamm_x ←ₜ t_lift (select_pybamm_x domain eval_on_edges) ;;
  comsol_x ←ₜ t_lift (from_option UnboundLocalError comsol_x) ;;
  variable ←ₜ interp1d_axis0 spline interp_kind comsol_x variable pybamm_x ;;
  t_ret (PybammFunction variable domain (variable_name +:+ "_comsol")).

(** Evaluating the returned [pybamm.Function] at the non-dimensional time
    [t]: its child is [pybamm.t * tau]. *)
Definition evaluate (fn : pybamm_function F) (t : F) : traced F (array2 F) :=
  myinterp (fn_variable fn) (t ⊗ tau).

(** The array the spatial pass produces: at every query position, one
    spline through the reference nodes per stored time sample. *)
Definition remapped (comsol_x : list F) (variable : array2 F)
    (pybamm_x : list F) : array2 F :=
  Array2 (length pybamm_x) (shape1 variable)
    ((λ q, (λ c, spline interp_kind comsol_x (column c variable) q)
             <$> seq 0 (shape1 variable)) <$> pybamm_x).

(** Building the adapter and then querying it at the times [ts]. *)
Definition session (variable_name : string) (domain : list string)
    (eval_on_edges : bool) (ts : list F) : traced F (list (array2 F)) :=
  fn ←ₜ get_interp_fun variable_name domain eval_on_edges ;;
  t_mapM (evaluate fn) ts.
End defs.
End ComsolAdapter.

(** ** Concrete runs

    Small inputs over the integers, on which the definitions above are
    evaluated. *)
Module Runs.
Import Scipy ComsolAdapter.
Open Scope Z_scope.

(** A stand-in for the numerical interpolant: the value at the first knot.
    The statements about the adapter hold for every interpolant; this one
    only lets the guards of [interp1d] run. *)
Definition first_knot_value (k : kind) (x y : list Z) (q : Z) : Z :=
  default 0 (head y).

(** Four nodes in the negative electrode, four time samples. *)
Definition four_nodes : comsol_data Z :=
  ComsolData [0; 10; 20; 30]
             (<["x_n" := [0; 1; 2; 3]]> ∅)
             (<["phi_n" := Array2 4 4 [[1; 2; 3; 4]; [5; 6; 7; 8];
                                       [9; 10; 11; 12]; [13; 14; 15; 16]]]> ∅).

(** The same field on three nodes only. *)
Definition three_nodes : comsol_data Z :=
  ComsolData [0; 10; 20; 30]
             (<["x_n" := [0; 1; 2]]> ∅)
             (<["phi_n" := Array2 3 4 [[1; 2; 3; 4]; [5; 6; 7; 8];
                                       [9; 10; 11; 12]]]> ∅).

(** Four nodes, three time samples. *)
Definition three_times : comsol_data Z :=
  ComsolData [0; 10; 20]
             (<["x_n" := [0; 1; 2; 3]]> ∅)
             (<["phi_n" := Array2 4 3 [[1; 2; 3]; [5; 6; 7];
                                       [9; 10; 11]; [13; 14; 15]]]> ∅).

(** A mesh with two nodes and three edges in the negative electrode. *)
Definition mesh (domain : list string) : result (submesh Z) :=
  if decide (domain = ["negative electrode"])
  then Ok (SubMesh [0; 1] [0; 1; 1])
  else Raise KeyError.

Definition L_x : Z := 2.
Definition tau : Z := 10.

(** Globals of the potential plots: resistance 3, terminal voltage [5 t],
    total current [t + 1], scale 2, reference potentials 4 and 1. *)
Definition globals : Potentials.globals Z :=
  Potentials.Globals (λ t, 5 * t) (λ t, t + 1) 3 2 4 1 (λ t z, t + 100 * z).
End Runs.

(** Temperature fields on [float64], written in hexadecimal notation. *)
Module Float64Runs.
Open Scope float_scope.

(** 298.15 K *)
Definition T_ref : float := 0x1.2a26666666666p+8.



End Float64Runs.

(** ** The curves of [supplementary/plot_discharge_curve.py], lines 109-169,
    and the markers of the comparison plots *)
Module DischargePlot.
Import Scipy DischargeCurve.

(** [l[0::step]], read from the entry that is [wait] places ahead. *)
Fixpoint stride_aux {A} (step wait : nat) (l : list A) : list A :=
  match l with
  | [] => []
  | x :: l' =>
      match wait with
      | 0 => x :: stride_aux step (step - 1) l'
      | S w => stride_aux step w l'
      end
  end.

(** [l[0::step]]; Python refuses a step of zero. *)
Definition stride {A} (step : nat) (l : list A) : result (list A) :=
  if decide (step = 0) then Raise ValueError else Ok (stride_aux step 0 l).

Section defs.
Context `{Scalar F}.
Variable spline : kind → list F → list F → F → F.
(** [comsol_variables["time"]], [comsol_variables["voltage"]] *)
Variables (comsol_t comsol_voltage_data : list F).
Variable tau : F.
(** The processed terminal voltage and discharge capacity of the solution. *)
Variables (terminal_voltage discharge_capacity : F → F).

(** [np.abs(a - b)] for one-dimensional arrays, with NumPy's broadcasting
    of a length-one operand. *)
Definition np_abs_sub (a b : list F) : result (list F) :=
  if decide (length a = length b)
  then Ok (zip_with (λ x y, s_abs (x ⊖ y)) a b)
  else match a, b with
       | [x], _ => Ok ((λ y, s_abs (x ⊖ y)) <$> b)
       | _, [y] => Ok ((λ x, s_abs (x ⊖ y)) <$> a)
       | _, _ => Raise ValueError
       end.

(** Lines 110-112. *)
Definition pybamm_voltage (time : list F) : list F :=
  sample0 terminal_voltage time.

(** Lines 121-123. *)
Definition dis_cap (time : list F) : list F :=
  sample0 discharge_capacity time.

(** Lines 126-133: the abscissae and ordinates of the reference markers,
    every 25th sample. *)
Definition comsol_markers (time : list F) : traced F (list F * list F) :=
  xs ←ₜ t_lift (stride 25 (dis_cap time)) ;;
  time_m ←ₜ t_lift (stride 25 time) ;;
  ys ←ₜ comsol_voltage spline comsol_t comsol_voltage_data tau time_m ;;
  t_ret (xs, ys).

(** Lines 156-162: the voltage difference curve. *)
Definition voltage_difference (time : list F) : traced F (list F) :=
  ref ←ₜ comsol_voltage spline comsol_t comsol_voltage_data tau time ;;
  t_lift (np_abs_sub (pybamm_voltage time) ref).
End defs.
End DischargePlot.

(** ** The broadcast, arm by arm *)
Section broadcast.
Context {F : Type}.
Implicit Types (a t z : list F) (k : nat).

Lemma omap_lookup_replicate k a i :
  i < k → omap (.!! i) ((λ x : F, replicate k x) <$> a) = a.
Proof.
  intros Hi. induction a as [|x a IH]; csimpl; [done|].
  rewrite lookup_replicate_2 by done. by rewrite IH.
Qed.

Lemma fmap_seq_const {B} (g : nat → B) (b : B) n k :
  (∀ i, i < k → g (n + i) = b) → g <$> seq n k = replicate k b.
Proof.
  revert n. induction k as [|k IH]; intros n Hg; simpl; [done|].
  f_equal.
  - rewrite <- (Hg 0) by lia. f_equal. lia.
  - apply IH. intros i Hi. rewrite <- (Hg (S i)) by lia. f_equal. lia.
Qed.

Lemma rows_transpose_repeat1_newaxis k a :
  rows (np_transpose (np_repeat1 k (newaxis_col a))) = replicate k a.
Proof.
  unfold np_transpose, np_repeat1, newaxis_col. cbn [rows shape0 shape1].
  rewrite Nat.mul_1_l. apply fmap_seq_const. intros i Hi. cbn [Nat.add].
  rewrite <- list_fmap_compose.
  rewrite <- (omap_lookup_replicate k a i) at 2 by lia.
  f_equal. apply list_fmap_ext. intros _ x _. simpl. by rewrite app_nil_r.
Qed.

End broadcast.


(** Both arms of the conditional build the same array: one copy of the
    sampled series per lateral position. *)
Section broadcast_arms.
Context `{Scalar F}.
Implicit Types (f : F → F) (t z : list F).

Lemma fmap_const_replicate {A B} (b : B) (l : list A) :
  (λ _, b) <$> l = replicate (length l) b.
Proof. induction l as [|x l IH]; csimpl; [done|]. by rewrite IH. Qed.

Lemma single_instant_arm f (t0 : F) z :
  np_repeat0 (length z) (newaxis_col (sample0 f [t0]))
  = Array2 (length z) 1 (replicate (length z) [f t0]).
Proof.
  unfold np_repeat0, newaxis_col, sample0. csimpl.
  by rewrite app_nil_r, Nat.add_0_r.
Qed.

Lemma general_arm f t z :
  np_transpose (np_repeat1 (length z) (newaxis_col (sample0 f t)))
  = Array2 (length z) (length t) (replicate (length z) (f <$> t)).
Proof.
  pose proof (rows_transpose_repeat1_newaxis (length z) (sample0 f t)) as Hr.
  unfold np_transpose in *. cbn [rows] in Hr. rewrite Hr.
  unfold np_repeat1, newaxis_col, sample0. cbn [shape0 shape1].
  by rewrite Nat.mul_1_l, length_fmap.
Qed.

Lemma current_bar_rows f t z :
  Current.pybamm_bar_var_fun f t z
  = Array2 (length z) (length t) (replicate (length z) (f <$> t)).
Proof.
  unfold Current.pybamm_bar_var_fun. case_decide as Hlen.
  - destruct t as [|t0 [|? ?]]; simplify_eq/=. apply single_instant_arm.
  - apply general_arm.
Qed.

Lemma sub_scalar_replicate k n (a : list F) (c : F) :
  sub_scalar (Array2 k n (replicate k a)) c
  = Array2 k n (replicate k ((λ x, x ⊖ c) <$> a)).
Proof. unfold sub_scalar. cbn [shape0 shape1 rows]. by rewrite fmap_replicate. Qed.

Lemma temperature_bar_rows (T_ref : F) f t z :
  Temperature.pybamm_bar_var_fun T_ref f t z
  = Array2 (length z) (length t)
           (replicate (length z) ((λ x, x ⊖ T_ref) <$> (f <$> t))).
Proof.
  unfold Temperature.pybamm_bar_var_fun. case_decide as Hlen.
  - destruct t as [|t0 [|? ?]]; try done.
    rewrite single_instant_arm. apply sub_scalar_replicate.
  - rewrite general_arm. apply sub_scalar_replicate.
Qed.

Lemma sample_tz_lateral_const f t z :
  sample_tz (λ ti _, f ti) t z
  = Array2 (length z) (length t) (replicate (length z) (f <$> t)).
Proof. unfold sample_tz. by rewrite fmap_const_replicate. Qed.

Lemma entry_replicate_rows k n (a : list F) j i :
  entry (Array2 k n (replicate k a)) j i
  = if decide (j < k) then a !! i else None.
Proof.
  unfold entry. cbn [rows]. case_decide.
  - by rewrite lookup_replicate_2.
  - assert (replicate k a !! j = None) as ->; [|done].
    apply lookup_replicate_None. lia.
Qed.

Lemma array2_wf_replicate k (a : list F) :
  array2_wf (Array2 k (length a) (replicate k a)).
Proof.
  split; cbn [rows shape0 shape1].
  - apply length_replicate.
  - apply Forall_replicate. done.
Qed.
End broadcast_arms.

(** ** The broadcast reconstruction *)

(** C2: for the through-cell current density and for the lumped temperature,
    and for every lateral vector [z_list], the reconstruction at the single
    instant [[t0]] (the [t.shape[0] == 1] arm) equals the first time column
    of the reconstruction at [[t0, t0]] (the [else] arm).  On a single
    instant the two arms compute the same array. *)
Theorem single_instant_agrees_with_general_path `{Scalar F}
    (I_av T_av : F → F) (T_ref t0 : F) (z_list : list F) :
  Current.pybamm_bar_var_fun I_av [t0] z_list
    = col_slice 0 1 (Current.pybamm_bar_var_fun I_av [t0; t0] z_list)
  ∧ Temperature.pybamm_bar_var_fun T_ref T_av [t0] z_list
    = col_slice 0 1 (Temperature.pybamm_bar_var_fun T_ref T_av [t0; t0] z_list)
  ∧ Current.single_instant_path I_av [t0] z_list
    = Current.general_path I_av [t0] z_list.
Proof.
  rewrite !current_bar_rows, !temperature_bar_rows.
  unfold col_slice. cbn [shape0 shape1 rows]. rewrite !fmap_replicate.
  repeat split; try done.
  unfold Current.single_instant_path, Current.general_path.
  by rewrite single_instant_arm, general_arm.
Qed.

(** C3: for every time vector and every lateral query [[z1, z2, z3]] the
    broadcast returns, at each time, the same value at [z1], [z2] and [z3]:
    the sampled series itself, repeated and not interpolated.  For any
    lateral vector the rows of the result are copies of one series, so the
    values along the lateral axis do not vary. *)
Theorem broadcast_uniform_along_lateral_axis `{Scalar F}
    (I_av T_av : F → F) (T_ref : F) (t : list F) (z1 z2 z3 : F) (i : nat) :
  let A := Current.pybamm_bar_var_fun I_av t [z1; z2; z3] in
  let B := Temperature.pybamm_bar_var_fun T_ref T_av t [z1; z2; z3] in
  (entry A 0 i = I_av <$> t !! i
   ∧ entry A 1 i = entry A 0 i ∧ entry A 2 i = entry A 0 i)
  ∧ (entry B 0 i = (λ ti, T_av ti ⊖ T_ref) <$> t !! i
     ∧ entry B 1 i = entry B 0 i ∧ entry B 2 i = entry B 0 i)
  ∧ (∀ z : list F,
       rows (Current.pybamm_bar_var_fun I_av t z)
         = replicate (length z) (sample0 I_av t)
       ∧ rows (Temperature.pybamm_bar_var_fun T_ref T_av t z)
         = replicate (length z) ((λ x, x ⊖ T_ref) <$> sample0 T_av t)).
Proof.
  intros A B. subst A B.
  rewrite current_bar_rows, temperature_bar_rows.
  repeat split.
  - unfold entry. cbn. by rewrite list_lookup_fmap.
  - unfold entry. cbn. by rewrite <- list_fmap_compose, list_lookup_fmap.
  - by rewrite current_bar_rows.
  - by rewrite temperature_bar_rows.
Qed.

(** C5: for a time vector [t] and a lateral vector [z] the broadcast
    reconstruction is the full grid over the two vectors: it is the sampling
    on [(t, z)] of the field that ignores [z], it has one row per position
    and one column per time, hence [len(z) * len(t)] entries, one per
    (time, space) pair, and the entry of the pair [(t_i, z_j)] is the series
    at [t_i]. *)
Theorem broadcast_is_full_grid `{Scalar F}
    (I_av T_av : F → F) (T_ref : F) (t z : list F) :
  let A := Current.pybamm_bar_var_fun I_av t z in
  let B := Temperature.pybamm_bar_var_fun T_ref T_av t z in
  (A = sample_tz (λ ti _, I_av ti) t z
   ∧ shape0 A = length z ∧ shape1 A = length t
   ∧ array2_wf A ∧ size2 A = length z * length t
   ∧ ∀ j i, entry A j i = z !! j ≫= λ _, I_av <$> t !! i)
  ∧ (B = sample_tz (λ ti _, T_av ti ⊖ T_ref) t z
     ∧ shape0 B = length z ∧ shape1 B = length t
     ∧ array2_wf B ∧ size2 B = length z * length t
     ∧ ∀ j i, entry B j i = z !! j ≫= λ _, (λ ti, T_av ti ⊖ T_ref) <$> t !! i).
Proof.
  intros A B. subst A B.
  rewrite current_bar_rows, temperature_bar_rows, <- list_fmap_compose.
  rewrite !sample_tz_lateral_const.
  assert (∀ (a : list F) j i,
    length a = length t →
    entry (Array2 (length z) (length t) (replicate (length z) a)) j i
    = z !! j ≫= λ _, a !! i) as Hentry.
  { intros a j i _. rewrite entry_replicate_rows. case_decide as Hj.
    - destruct (lookup_lt_is_Some_2 z j Hj) as [zj ->]. done.
    - rewrite (lookup_ge_None_2 z j) by lia. done. }
  split; (split; [done|]); cbn [shape0 shape1];
    (split; [done|]); (split; [done|]); split.
  - rewrite <- (length_fmap I_av t). apply array2_wf_replicate.
  - split; [done|]. intros j i. rewrite <- list_lookup_fmap.
    apply Hentry. by rewrite length_fmap.
  - rewrite <- (length_fmap (λ ti, T_av ti ⊖ T_ref) t). apply array2_wf_replicate.
  - split; [done|]. intros j i. rewrite <- list_lookup_fmap.
    apply Hentry. by rewrite length_fmap.
Qed.

(** ** Collector potentials *)
Section potentials.
Context `{Scalar F}.
Implicit Types (g : Potentials.globals F) (t z : list F).

Lemma zip_with_fmap_both {A} (op : F → F → F) (a b : A → F) (l : list A) :
  zip_with op (a <$> l) (b <$> l) = (λ x, op (a x) (b x)) <$> l.
Proof. induction l as [|x l IH]; csimpl; [done|]. by rewrite IH. Qed.

Lemma V_av_pointwise g t :
  Potentials.V_av g t
  = (λ ti, Potentials.V_av_1D g ti ⊖ Potentials.I_av g ti ⊗ Potentials.R_cc g)
      <$> t.
Proof.
  unfold Potentials.V_av, sample0. rewrite <- list_fmap_compose.
  apply (zip_with_fmap_both s_sub).
Qed.

Lemma V_av_dim_pointwise g t :
  Potentials.V_av_dim g t
  = (λ ti, Potentials.U_ref g
           ⊕ (Potentials.V_av_1D g ti
              ⊖ Potentials.I_av g ti ⊗ Potentials.R_cc g)
             ⊗ Potentials.pot_scale g) <$> t.
Proof.
  unfold Potentials.V_av_dim. rewrite V_av_pointwise.
  by rewrite <- list_fmap_compose.
Qed.

(** A closure reads [I_av] when it is called: once line 240 has bound the
    name anew, a call of [V_av] would use the new sampler. *)
Lemma V_av_reads_current_binding g (f : F → F) t :
  Potentials.V_av (Potentials.rebind_I_av g f) t
  = (λ ti, Potentials.V_av_1D g ti ⊖ f ti ⊗ Potentials.R_cc g) <$> t.
Proof. by rewrite V_av_pointwise. Qed.

Lemma sub_broadcast_time_series (phi : F → F → F) (v : F → F) t z :
  np_sub_broadcast (sample_tz phi t z) (v <$> t)
  = Ok (sample_tz (λ ti zj, phi ti zj ⊖ v ti) t z).
Proof.
  unfold np_sub_broadcast, sample_tz. cbn [shape0 shape1 rows].
  rewrite length_fmap. case_decide; [|done].
  do 2 f_equal. rewrite <- list_fmap_compose.
  apply list_fmap_ext. intros _ zj _. cbn.
  apply (zip_with_fmap_both s_sub).
Qed.
End potentials.

(** C1: the corrected average potential is, at every query time [t_i],
    [V_terminal(t_i) - I_total(t_i) * R], where [R] is the one scalar read
    at [[0][0]] of the evaluated resistance of the current-collector
    solution; [R] is fixed before any query time is given. *)
Theorem V_av_is_resistance_corrected_average `{Scalar F}
    (evaluated : array2 F) (V_terminal I_total : F → F) (scale U_p U_n : F)
    (potentials_var : F → F → F) (g : Potentials.globals F) :
  Potentials.globals_at_potential_plots
    evaluated V_terminal I_total scale U_p U_n potentials_var = Ok g →
  ∃ R : F,
    entry evaluated 0 0 = Some R
    ∧ Potentials.R_cc g = R
    ∧ ∀ t : list F,
        Potentials.V_av g t = (λ ti, V_terminal ti ⊖ I_total ti ⊗ R) <$> t
        ∧ length (Potentials.V_av g t) = length t.
Proof.
  unfold Potentials.globals_at_potential_plots, Potentials.R_cc_of.
  destruct (entry evaluated 0 0) as [R|] eqn:HR; cbn; [|done].
  intros [= <-]. exists R. repeat split; try done.
  - apply V_av_pointwise.
  - rewrite V_av_pointwise. apply length_fmap.
Qed.

(** C4: the negative-collector potential of the bridge is compared as it is;
    the positive-collector value compared at [(t_i, z_j)] is the raw
    reconstructed potential there minus the dimensional corrected voltage
    [V_av_dim(t_i)]. *)
Theorem collector_potentials_reference `{Scalar F}
    (potentials_neg : F → F → F) (g : Potentials.globals F) (t z : list F) :
  NegativeCollector.pybamm_bar_var_fun potentials_neg t z
    = sample_tz potentials_neg t z
  ∧ PositiveCollector.pybamm_bar_var_fun g t z
    = Ok (sample_tz
            (λ ti zj,
               Potentials.pybamm_bar_var g ti zj
               ⊖ (Potentials.U_ref g
                  ⊕ (Potentials.V_av_1D g ti
                     ⊖ Potentials.I_av g ti ⊗ Potentials.R_cc g)
                    ⊗ Potentials.pot_scale g))
            t z)
  ∧ Potentials.V_av_dim g t
    = (λ ti, Potentials.U_ref g
             ⊕ (Potentials.V_av_1D g ti
                ⊖ Potentials.I_av g ti ⊗ Potentials.R_cc g)
               ⊗ Potentials.pot_scale g) <$> t.
Proof.
  split; [done|]. split; [|apply V_av_dim_pointwise].
  unfold PositiveCollector.pybamm_bar_var_fun.
  rewrite V_av_dim_pointwise. apply sub_broadcast_time_series.
Qed.

(** C8: the dimensional corrected voltage is the affine rescaling
    [reference_offset + phi * potential_scale] of the corrected average
    voltage at every time, with the reference offset the positive minus the
    negative electrode reference potential; it is this series that the
    positive-collector potential is re-referenced by. *)
Theorem V_av_dim_is_affine_rescaling `{Scalar F}
    (g : Potentials.globals F) (t z : list F) :
  Potentials.U_ref g = Potentials.U_p_ref g ⊖ Potentials.U_n_ref g
  ∧ Potentials.V_av_dim g t
    = to_dimensional_potential
        (Potentials.U_p_ref g ⊖ Potentials.U_n_ref g) (Potentials.pot_scale g)
      <$> Potentials.V_av g t
  ∧ Potentials.V_av_dim g t
    = (λ ti, to_dimensional_potential
               (Potentials.U_p_ref g ⊖ Potentials.U_n_ref g)
               (Potentials.pot_scale g)
               (Potentials.V_av_1D g ti
                ⊖ Potentials.I_av g ti ⊗ Potentials.R_cc g)) <$> t
  ∧ PositiveCollector.pybamm_bar_var_fun g t z
    = np_sub_broadcast
        (sample_tz (Potentials.pybamm_bar_var g) t z)
        (to_dimensional_potential
           (Potentials.U_p_ref g ⊖ Potentials.U_n_ref g)
           (Potentials.pot_scale g)
         <$> Potentials.V_av g t).
Proof.
  repeat split; try done. apply V_av_dim_pointwise.
Qed.

(** ** Temperature: one offset on every side *)
Section temperature_offset.
Context `{Scalar F}.



Lemma nd_shape_sub_scalar (X : ndarray F) (c : F) :
  nd_shape (nd_sub_scalar X c) = nd_shape X.
Proof. destruct X as [a|A]; cbn; [|done]. by rewrite length_fmap. Qed.


End temperature_offset.

(** In exact arithmetic the offset cancels at every pair of values. *)
Section exact_arithmetic.
Context `{ExactScalar F}.

Add Ring scalar_ring : s_ring.

Lemma shared_offset_cancels (a b c : F) : (a ⊖ c) ⊖ (b ⊖ c) = a ⊖ b.
Proof. ring. Qed.

Lemma offset_cancels_in_exact_arithmetic (c : F) (U V : ndarray F) :
  offset_cancels c U V.
Proof.
  unfold offset_cancels. apply Forall_forall. intros [a b] _.
  apply shared_offset_cancels.
Qed.
End exact_arithmetic.


(** ** Restriction to the times before the cut-off *)
Section cutoff.
Context {A : Type}.
Implicit Types (a : list A) (mask : list bool).
Import DischargeCurve.

Lemma length_bool_index a mask :
  length a = length mask → length (bool_index a mask) = count_true mask.
Proof.
  revert mask. induction a as [|x a IH]; intros [|[] mask] Hlen;
    simplify_eq/=; try done; by rewrite IH.
Qed.

Lemma count_true_le mask : count_true mask ≤ length mask.
Proof. induction mask as [|[] mask IH]; simpl; lia. Qed.

Lemma bool_index_elem_of a mask (y : A) : y ∈ bool_index a mask → y ∈ a.
Proof.
  revert mask. induction a as [|x a IH]; intros [|[] mask]; simpl; intros Hy;
    try (by apply elem_of_nil in Hy).
  - apply elem_of_cons in Hy as [->|Hy]; [left | right; eauto].
  - right. eauto.
Qed.

Lemma all_below_count mask : forallb negb mask = true → count_true mask = 0.
Proof.
  induction mask as [|[] mask IH]; simpl; try done.
Qed.

Lemma count_zero_all_below mask : count_true mask = 0 → forallb negb mask = true.
Proof. induction mask as [|[] mask IH]; simpl; try done. Qed.

Lemma all_below_bool_index a mask :
  forallb negb mask = true → bool_index a mask = [].
Proof.
  revert mask. induction a as [|x a IH]; intros [|[] mask]; simpl; try done.
  apply IH.
Qed.

(** A series that never recovers keeps, by count, what the mask keeps. *)
Lemma prefix_eq_mask_of_never_recovers a mask :
  never_recovers mask = true → take (count_true mask) a = bool_index a mask.
Proof.
  revert mask. induction a as [|x a IH]; intros [|[] mask] Hnr; simpl in *;
    try done.
  - by rewrite take_nil.
  - by rewrite IH.
  - by rewrite all_below_count, all_below_bool_index.
Qed.

(** With distinct times, the count-based prefix is the masked selection only
    if the series never recovers. *)
Lemma never_recovers_of_prefix_eq_mask a mask :
  NoDup a → length a = length mask →
  take (count_true mask) a = bool_index a mask → never_recovers mask = true.
Proof.
  revert mask. induction a as [|x a IH]; intros [|[] mask] Hnd Hlen Heq;
    simplify_eq/=; try done.
  - apply IH; [by eapply NoDup_cons_1_2 | done | done].
  - destruct (count_true mask) as [|c] eqn:Hc.
    + by apply count_zero_all_below.
    + simpl in Heq. exfalso. apply NoDup_cons_1_1 in Hnd. apply Hnd.
      apply (bool_index_elem_of a mask). rewrite <- Heq. left.
Qed.
End cutoff.

(** C10: the restricted time vector is the first [k] entries of the
    solution's time vector, [k] being the number of terminal-voltage samples
    strictly above the cut-off.  It is a prefix by count: for distinct times
    it coincides with the times selected by the mask [voltage > V_cutoff]
    exactly when no sample is above the cut-off after one at or below it. *)
Theorem restricted_time_is_count_prefix `{Scalar F}
    (terminal_voltage : F → F) (V_cutoff : F) (time : list F) :
  NoDup time →
  let voltage := sample0 terminal_voltage time in
  let k := DischargeCurve.count_true (DischargeCurve.above_cutoff voltage V_cutoff) in
  DischargeCurve.restrict_time DischargeCurve.CasadiSolver
    terminal_voltage V_cutoff time = take k time
  ∧ k ≤ length time
  ∧ (DischargeCurve.restrict_time DischargeCurve.CasadiSolver
       terminal_voltage V_cutoff time
     = DischargeCurve.masked_time terminal_voltage V_cutoff time
     ↔ DischargeCurve.never_recovers
         (DischargeCurve.above_cutoff voltage V_cutoff) = true).
Proof.
  intros Hnd voltage k.
  assert (length time = length (DischargeCurve.above_cutoff voltage V_cutoff))
    as Hlen.
  { unfold DischargeCurve.above_cutoff, voltage, sample0.
    by rewrite !length_fmap. }
  assert (DischargeCurve.restrict_time DischargeCurve.CasadiSolver
            terminal_voltage V_cutoff time = take k time) as Hk.
  { unfold DischargeCurve.restrict_time, DischargeCurve.voltage_OK.
    fold voltage. rewrite length_bool_index; [done|].
    unfold DischargeCurve.above_cutoff. by rewrite length_fmap. }
  split; [done|]. split.
  - rewrite Hlen. apply count_true_le.
  - rewrite Hk. unfold DischargeCurve.masked_time. fold voltage. split.
    + by apply never_recovers_of_prefix_eq_mask.
    + apply prefix_eq_mask_of_never_recovers.
Qed.

(** ** The COMSOL adapter *)
Section adapter.
Import Scipy ComsolAdapter.
Context `{Scalar F}.
Variable spline : kind → list F → list F → F → F.
Variable data : comsol_data F.
Variable mesh : list string → result (submesh F).
Variables (L_x tau : F).

(** [get_interp_fun], case by case. *)
Lemma get_interp_fun_cases name domain (eval_on_edges : bool) :
  get_interp_fun spline data mesh L_x name domain eval_on_edges =
  match cv_fields data !! name with
  | None => ([], Raise KeyError)
  | Some variable =>
    match select_comsol_x data domain with
    | Raise e => ([], Raise e)
    | Ok cx =>
      match select_pybamm_x mesh L_x domain eval_on_edges with
      | Raise e => ([], Raise e)
      | Ok pybamm_x =>
        match cx with
        | None => ([], Raise UnboundLocalError)
        | Some comsol_x =>
            ([InterpCall Axis0 interp_kind comsol_x pybamm_x],
             if decide (shape0 variable ≠ length comsol_x) then Raise ValueError
             else if decide (length comsol_x < 4) then Raise ValueError
             else if repeated_knots comsol_x then Raise ValueError
             else if existsb (out_of_bounds comsol_x) pybamm_x
                  then Raise ValueError
             else Ok (PybammFunction (remapped spline comsol_x variable pybamm_x)
                        domain (name +:+ "_comsol")))
        end
      end
    end
  end.
Proof.
  unfold get_interp_fun.
  destruct (cv_fields data !! name) as [variable|]; [|done].
  destruct (select_comsol_x data domain) as [cx|e]; [|done].
  destruct (select_pybamm_x mesh L_x domain eval_on_edges) as [px|e]; [|done].
  destruct cx as [comsol_x|]; [|done].
  cbn. unfold interp1d_axis0. cbn.
  repeat case_decide; try done.
  destruct (repeated_knots comsol_x); [done|].
  by destruct (existsb _ _).
Qed.

(** A query logs one interpolation along the time axis, over the reference
    times, whatever its outcome. *)
Lemma trace_myinterp (variable : array2 F) (t : F) :
  trace (myinterp spline data variable t)
  = [InterpCall AxisLast interp_kind (cv_time data) [t]].
Proof.
  unfold myinterp, interp1d_last. cbn.
  repeat case_decide; try done.
  destruct (repeated_knots _); [done|].
  by destruct (out_of_bounds _ _).
Qed.

Lemma outcome_myinterp (variable : array2 F) (t : F) :
  outcome (myinterp spline data variable t)
  = if decide (shape1 variable ≠ length (cv_time data)) then Raise ValueError
    else if decide (length (cv_time data) < 4) then Raise ValueError
    else if repeated_knots (cv_time data) then Raise ValueError
    else if out_of_bounds (cv_time data) t then Raise ValueError
    else Ok (newaxis_col
               ((λ r, spline interp_kind (cv_time data) r t) <$> rows variable)).
Proof.
  unfold myinterp, interp1d_last. cbn.
  repeat case_decide; try done.
  destruct (repeated_knots _); [done|].
  by destruct (out_of_bounds _ _).
Qed.

Lemma trace_evaluate (fn : pybamm_function F) (t : F) :
  trace (evaluate spline data tau fn t)
  = [InterpCall AxisLast interp_kind (cv_time data) [t ⊗ tau]].
Proof. apply trace_myinterp. Qed.

Lemma trace_bind {A B} (m : traced F A) (f : A → traced F B) :
  trace (t_bind m f)
  = match outcome m with
    | Ok a => trace m ++ trace (f a)
    | Raise _ => trace m
    end.
Proof. destruct m as [l [a|e]]; cbn; [|done]. by destruct (f a). Qed.

Lemma outcome_bind {A B} (m : traced F A) (f : A → traced F B) :
  outcome (t_bind m f)
  = match outcome m with
    | Ok a => outcome (f a)
    | Raise e => Raise e
    end.
Proof. destruct m as [l [a|e]]; cbn; [|done]. by destruct (f a). Qed.

Lemma trace_mapM_queries (fn : pybamm_function F) (ts : list F) :
  Forall (λ c, ic_axis c = AxisLast ∧ ic_kind c = interp_kind
               ∧ ic_x c = cv_time data)
         (trace (t_mapM (evaluate spline data tau fn) ts))
  ∧ length (trace (t_mapM (evaluate spline data tau fn) ts)) ≤ length ts.
Proof.
  induction ts as [|t ts [IH1 IH2]]; cbn [t_mapM].
  - split; [constructor | done].
  - rewrite trace_bind, trace_evaluate.
    destruct (outcome _) as [a|e].
    + rewrite trace_bind. destruct (outcome (t_mapM _ _)) as [bs|e];
        cbn [trace t_ret fst app]; rewrite ?app_nil_r.
      * split; [by constructor | cbn; lia].
      * split; [by constructor | cbn; lia].
    + split; [by repeat constructor | cbn; lia].
Qed.
End adapter.


(** C6, as the code has it: field evaluation is two-stage, first along the
    spatial axis at every stored time sample and then along the time axis,
    and both stages use the one fixed kind, cubic; nothing degrades to
    linear.  With the field, the domain's reference nodes and the submesh
    present: every interpolation a session runs is cubic; fewer than four
    reference nodes make the construction raise [ValueError]; fewer than four
    time samples make every query raise [ValueError], and likewise the
    reference voltage of the discharge plot; and whenever building the
    adapter and querying it returns, one spatial and then one temporal
    interpolation have run and the value is the cubic time interpolation of
    the cubic spatial interpolation. *)
Theorem interpolation_is_cubic_without_fallback `{Scalar F}
    (spline : Scipy.kind → list F → list F → F → F)
    (data : ComsolAdapter.comsol_data F)
    (mesh : list string → result (ComsolAdapter.submesh F)) (L_x tau : F)
    (name : string) (domain : list string) (eval_on_edges : bool)
    (variable : array2 F) (comsol_x : list F) (sub : ComsolAdapter.submesh F) :
  ComsolAdapter.cv_fields data !! name = Some variable →
  ComsolAdapter.select_comsol_x data domain = Ok (Some comsol_x) →
  mesh domain = Ok sub →
  let pybamm_x :=
    (λ x, x ⊗ L_x) <$> (if eval_on_edges then ComsolAdapter.edges sub
                        else ComsolAdapter.nodes sub) in
  let comsol_t := ComsolAdapter.cv_time data in
  (∀ ts : list F,
      Forall (λ c, Scipy.ic_kind c = Scipy.Cubic)
        (Scipy.trace (ComsolAdapter.session spline data mesh L_x tau
                        name domain eval_on_edges ts)))
  ∧ (length comsol_x < 4 →
     Scipy.outcome (ComsolAdapter.get_interp_fun spline data mesh L_x
                      name domain eval_on_edges) = Raise ValueError)
  ∧ (length comsol_t < 4 →
     (∀ (fn : ComsolAdapter.pybamm_function F) (t : F),
        Scipy.outcome (ComsolAdapter.evaluate spline data tau fn t)
        = Raise ValueError)
     ∧ (∀ voltage time : list F,
        Scipy.outcome (DischargeCurve.comsol_voltage spline comsol_t voltage
                         tau time) = Raise ValueError))
  ∧ (∀ (t : F) (rs : list (array2 F)),
      Scipy.outcome (ComsolAdapter.session spline data mesh L_x tau
                       name domain eval_on_edges [t]) = Ok rs →
      rs = [newaxis_col
              ((λ q, spline Scipy.Cubic comsol_t
                       ((λ c, spline Scipy.Cubic comsol_x
                                (Scipy.column c variable) q)
                          <$> seq 0 (shape1 variable))
                       (t ⊗ tau))
                 <$> pybamm_x)]
      ∧ Scipy.trace (ComsolAdapter.session spline data mesh L_x tau
                       name domain eval_on_edges [t])
        = [Scipy.InterpCall Scipy.Axis0 Scipy.Cubic comsol_x pybamm_x;
           Scipy.InterpCall Scipy.AxisLast Scipy.Cubic comsol_t [t ⊗ tau]]).
Proof.
  intros Hvar Hx Hmesh pybamm_x comsol_t.
  assert (ComsolAdapter.select_pybamm_x mesh L_x domain eval_on_edges
          = Ok pybamm_x) as Hpx.
  { unfold ComsolAdapter.select_pybamm_x. by rewrite Hmesh. }
  pose proof (get_interp_fun_cases spline data mesh L_x name domain
                eval_on_edges) as Hcases.
  rewrite Hvar, Hx, Hpx in Hcases.
  split; [|split; [|split]].
  - intros ts. unfold ComsolAdapter.session. rewrite trace_bind, Hcases.
    cbn [Scipy.outcome Scipy.trace fst snd].
    destruct (if decide _ then _ else _) as [fn|e].
    + apply Forall_app. split; [by repeat constructor|].
      eapply Forall_impl; [apply trace_mapM_queries|].
      by intros c (_ & -> & _).
    + by repeat constructor.
  - intros Hlt. rewrite Hcases. cbn. repeat case_decide; done.
  - intros Hlt. split.
    + intros fn t. unfold ComsolAdapter.evaluate. rewrite outcome_myinterp.
      fold comsol_t. repeat case_decide; done.
    + intros voltage time.
      unfold DischargeCurve.comsol_voltage, Scipy.interp1d_vec. cbn.
      repeat case_decide; try done; cbn in *; lia.
  - intros t rs. unfold ComsolAdapter.session.
    rewrite outcome_bind, trace_bind, Hcases.
    cbn [Scipy.outcome Scipy.trace fst snd].
    repeat case_decide; try done.
    destruct (Scipy.repeated_knots comsol_x); [done|].
    destruct (existsb _ _); [done|].
    cbn [Scipy.t_mapM].
    rewrite !outcome_bind, !trace_bind, trace_evaluate.
    unfold ComsolAdapter.evaluate. rewrite outcome_myinterp. fold comsol_t.
    cbn [ComsolAdapter.fn_variable ComsolAdapter.remapped shape1 rows].
    repeat case_decide; try done.
    destruct (Scipy.repeated_knots comsol_t); [done|].
    destruct (Scipy.out_of_bounds comsol_t _); [done|].
    cbn. intros [= <-]. split; [|done].
    by rewrite <- list_fmap_compose.
Qed.

(** ** Runs on concrete inputs *)
Section runs.
Import Scipy ComsolAdapter.
Open Scope Z_scope.

Example broadcast_single_instant :
  Current.pybamm_bar_var_fun (λ t, 2 * t) [5] [1; 2; 3]
  = Array2 3 1 [[10]; [10]; [10]].
Proof. reflexivity. Qed.

Example broadcast_two_instants :
  Current.pybamm_bar_var_fun (λ t, 2 * t) [5; 6] [1; 2; 3]
  = Array2 3 2 [[10; 12]; [10; 12]; [10; 12]].
Proof. reflexivity. Qed.

Example broadcast_no_instant :
  Current.pybamm_bar_var_fun (λ t, 2 * t) [] [1; 2]
  = Array2 2 0 [[]; []].
Proof. reflexivity. Qed.

Example broadcast_temperature :
  Temperature.pybamm_bar_var_fun 298 (λ t, 300 + t) [0; 4] [7; 8]
  = Array2 2 2 [[2; 6]; [2; 6]].
Proof. reflexivity. Qed.

Example corrected_voltage_run :
  Potentials.V_av Runs.globals [0; 2] = [-3; 1]
  ∧ Potentials.V_av_dim Runs.globals [0; 2] = [-3; 5].
Proof. split; reflexivity. Qed.

(** The positive-collector value is not the raw potential: at [t = 2] the
    raw values 102 and 202 are compared as 97 and 197. *)
Example positive_collector_run :
  sample_tz (Potentials.pybamm_bar_var Runs.globals) [2] [1; 2]
  = Array2 2 1 [[102]; [202]]
  ∧ PositiveCollector.pybamm_bar_var_fun Runs.globals [2] [1; 2]
    = Ok (Array2 2 1 [[97]; [197]]).
Proof. split; reflexivity. Qed.

(** A voltage that dips under the cut-off and comes back: two samples are
    above it, so the first two times are kept, though the mask would keep
    the first and the third. *)
Example count_prefix_differs_from_mask :
  let V t := match t with 0 => 10 | 1 => 7 | _ => 9 end in
  DischargeCurve.restrict_time DischargeCurve.CasadiSolver V 8 [0; 1; 2]
  = [0; 1]
  ∧ DischargeCurve.masked_time V 8 [0; 1; 2] = [0; 2].
Proof. split; reflexivity. Qed.

Example adapter_builds_on_four_nodes :
  get_interp_fun Runs.first_knot_value Runs.four_nodes Runs.mesh Runs.L_x
                 "phi_n" ["negative electrode"] false
  = ([InterpCall Axis0 Cubic [0; 1; 2; 3] [0; 2]],
     Ok (PybammFunction (Array2 2 4 [[1; 2; 3; 4]; [1; 2; 3; 4]])
                        ["negative electrode"] "phi_n_comsol")).
Proof. vm_compute. reflexivity. Qed.

Example adapter_unknown_domain :
  outcome (get_interp_fun Runs.first_knot_value Runs.four_nodes
             (λ _, Ok (SubMesh [0; 1] [0; 1; 1])) Runs.L_x
             "phi_n" ["current collector"] false)
  = Raise UnboundLocalError.
Proof. vm_compute. reflexivity. Qed.

Example adapter_refuses_repeated_nodes :
  outcome (get_interp_fun Runs.first_knot_value
             (ComsolData [0; 10; 20; 30]
                (<["x_n" := [0; 1; 1; 2; 3]]> ∅)
                (<["phi_n" := Array2 5 4 [[1; 2; 3; 4]; [5; 6; 7; 8];
                                          [5; 6; 7; 8]; [9; 10; 11; 12];
                                          [13; 14; 15; 16]]]> ∅))
             Runs.mesh Runs.L_x "phi_n" ["negative electrode"] false)
  = Raise ValueError.
Proof. vm_compute. reflexivity. Qed.

Example queries_fail_on_three_times :
  outcome (session Runs.first_knot_value Runs.three_times Runs.mesh Runs.L_x
             Runs.tau "phi_n" ["negative electrode"] false [1])
  = Raise ValueError.
Proof. vm_compute. reflexivity. Qed.
End runs.

(** The same definitions on [float64] values. *)
Section float64_runs.
Open Scope float_scope.

Example broadcast_on_float64 :
  Current.pybamm_bar_var_fun (λ t, 2 * t) [0.5; 1.5] [0; 0.25; 1]
  = Array2 3 2 [[1; 3]; [1; 3]; [1; 3]].
Proof. reflexivity. Qed.

Example corrected_voltage_on_float64 :
  Potentials.V_av
    (Potentials.Globals (λ t, 4 - t) (λ _, 2) 0.25 1 4 0.5 (λ t z, t * z))
    [0; 0.5; 1]
  = [3.5; 3; 2.5].
Proof. reflexivity. Qed.

Example cutoff_on_float64 :
  DischargeCurve.restrict_time DischargeCurve.CasadiSolver
    (λ t, 4 - t) 3.25 [0; 0.5; 1; 1.5]
  = [0; 0.5].
Proof. reflexivity. Qed.
End float64_runs.

(** C6, as the specification words it, fails on the code: a field on three
    reference nodes is not evaluated by a linear rule; building its adapter
    raises [ValueError], after one cubic interpolation was attempted. *)
Lemma three_nodes_do_not_degrade_to_linear :
  Scipy.outcome
    (ComsolAdapter.get_interp_fun Runs.first_knot_value Runs.three_nodes
       Runs.mesh Runs.L_x "phi_n" ["negative electrode"] false)
  = Raise ValueError
  ∧ Scipy.ic_kind <$>
      Scipy.trace
        (ComsolAdapter.get_interp_fun Runs.first_knot_value Runs.three_nodes
           Runs.mesh Runs.L_x "phi_n" ["negative electrode"] false)
    = [Scipy.Cubic].
Proof. vm_compute. split; reflexivity. Qed.



(** ** The statements above, applied to the concrete runs *)
Section witnesses.
Open Scope Z_scope.

Lemma V_av_is_resistance_corrected_average_witness :
  Potentials.globals_at_potential_plots
    (Array2 1 1 [[3%Z]]) (λ t, 5 * t)%Z (λ t, t + 1)%Z 2%Z 4%Z 1%Z
    (λ t z, t + 100 * z)%Z = Ok Runs.globals
  ∧ ∃ R : Z,
      entry (Array2 1 1 [[3%Z]]) 0 0 = Some R
      ∧ Potentials.R_cc Runs.globals = R
      ∧ ∀ t : list Z,
          Potentials.V_av Runs.globals t
          = (λ ti, 5 * ti ⊖ (ti + 1) ⊗ R)%Z <$> t
          ∧ length (Potentials.V_av Runs.globals t) = length t.
Proof.
  split; [reflexivity|].
  apply (V_av_is_resistance_corrected_average
           (Array2 1 1 [[3%Z]]) (λ t, 5 * t)%Z (λ t, t + 1)%Z 2%Z 4%Z 1%Z
           (λ t z, t + 100 * z)%Z Runs.globals).
  reflexivity.
Defined.

Lemma restricted_time_is_count_prefix_witness :
  NoDup [0; 1; 2; 3]%Z
  ∧ DischargeCurve.restrict_time DischargeCurve.CasadiSolver
      (λ t, 10 - t)%Z 8%Z [0; 1; 2; 3]%Z = take 2 [0; 1; 2; 3]%Z
  ∧ DischargeCurve.restrict_time DischargeCurve.CasadiSolver
      (λ t, 10 - t)%Z 8%Z [0; 1; 2; 3]%Z
    = DischargeCurve.masked_time (λ t, 10 - t)%Z 8%Z [0; 1; 2; 3]%Z.
Proof.
  assert (NoDup [0; 1; 2; 3]%Z) as Hnd
    by (apply (bool_decide_unpack (NoDup [0; 1; 2; 3]%Z)); vm_compute; exact I).
  pose proof (restricted_time_is_count_prefix
                (λ t, 10 - t)%Z 8%Z [0; 1; 2; 3]%Z Hnd) as Hc.
  cbv zeta in Hc. destruct Hc as (Hk & _ & Hiff).
  split; [exact Hnd|]. split; [exact Hk | apply Hiff; reflexivity].
Defined.


Lemma interpolation_is_cubic_without_fallback_witness :
  Scipy.outcome
    (ComsolAdapter.session Runs.first_knot_value Runs.four_nodes Runs.mesh
       Runs.L_x Runs.tau "phi_n" ["negative electrode"] false [1%Z])
  = Ok [Array2 2 1 [[1]; [1]]%Z]
  ∧ Scipy.trace
      (ComsolAdapter.session Runs.first_knot_value Runs.four_nodes Runs.mesh
         Runs.L_x Runs.tau "phi_n" ["negative electrode"] false [1%Z])
    = [Scipy.InterpCall Scipy.Axis0 Scipy.Cubic [0; 1; 2; 3]%Z [0; 2]%Z;
       Scipy.InterpCall Scipy.AxisLast Scipy.Cubic [0; 10; 20; 30]%Z [10%Z]].
Proof.
  assert (ComsolAdapter.cv_fields Runs.four_nodes !! "phi_n"
          = Some (Array2 4 4 [[1; 2; 3; 4]; [5; 6; 7; 8];
                              [9; 10; 11; 12]; [13; 14; 15; 16]]%Z)) as Hvar
    by (vm_compute; reflexivity).
  assert (ComsolAdapter.select_comsol_x Runs.four_nodes ["negative electrode"]
          = Ok (Some [0; 1; 2; 3]%Z)) as Hx by (vm_compute; reflexivity).
  assert (Runs.mesh ["negative electrode"]
          = Ok (ComsolAdapter.SubMesh [0; 1]%Z [0; 1; 1]%Z)) as Hmesh
    by reflexivity.
  assert (Scipy.outcome
            (ComsolAdapter.session Runs.first_knot_value Runs.four_nodes
               Runs.mesh Runs.L_x Runs.tau "phi_n" ["negative electrode"]
               false [1%Z])
          = Ok [Array2 2 1 [[1]; [1]]%Z]) as Hok
    by (vm_compute; reflexivity).
  split; [exact Hok|].
  pose proof (interpolation_is_cubic_without_fallback
                Runs.first_knot_value Runs.four_nodes Runs.mesh Runs.L_x
                Runs.tau "phi_n" ["negative electrode"] false _ _ _
                Hvar Hx Hmesh) as Hc.
  cbv zeta in Hc. destruct Hc as (_ & _ & _ & Hval).
  exact (proj2 (Hval 1%Z _ Hok)).
Defined.
End witnesses.

(** ** Further properties of the broadcast *)

(** The special case for a single instant is not needed for the values: for
    every time vector, of whatever length, the conditional returns what its
    [else] arm alone would return. *)
Theorem broadcast_conditional_equals_general_arm `{Scalar F}
    (I_av T_av : F → F) (T_ref : F) (t z : list F) :
  Current.pybamm_bar_var_fun I_av t z = Current.general_path I_av t z
  ∧ Temperature.pybamm_bar_var_fun T_ref T_av t z
    = sub_scalar
        (np_transpose (np_repeat1 (length z) (newaxis_col (sample0 T_av t))))
        T_ref.
Proof.
  split.
  - rewrite current_bar_rows. unfold Current.general_path.
    by rewrite general_arm.
  - rewrite temperature_bar_rows, general_arm. by rewrite sub_scalar_replicate.
Qed.

(** Empty queries: without times the broadcast has one empty row per
    position, shape [(len(z), 0)]; without positions it has no row at all,
    shape [(0, len(t))].  Neither raises. *)
Theorem broadcast_on_empty_queries `{Scalar F}
    (I_av T_av : F → F) (T_ref : F) (t z : list F) :
  Current.pybamm_bar_var_fun I_av [] z
    = Array2 (length z) 0 (replicate (length z) [])
  ∧ Current.pybamm_bar_var_fun I_av t [] = Array2 0 (length t) []
  ∧ Temperature.pybamm_bar_var_fun T_ref T_av [] z
    = Array2 (length z) 0 (replicate (length z) [])
  ∧ Temperature.pybamm_bar_var_fun T_ref T_av t [] = Array2 0 (length t) [].
Proof.
  rewrite !current_bar_rows, !temperature_bar_rows. done.
Qed.

(** ** Further properties of the collector potentials *)
Section collector_extras.
Context `{Scalar F}.

Lemma zip_with_fmap_diag {A B C D} (op : B → C → D) (a : A → B) (b : A → C)
    (l : list A) :
  zip_with op (a <$> l) (b <$> l) = (λ x, op (a x) (b x)) <$> l.
Proof. induction l as [|x l IH]; csimpl; [done|]. by rewrite IH. Qed.

Lemma entry_zero_wf (A : array2 F) :
  array2_wf A → (entry A 0 0 = None ↔ shape0 A = 0 ∨ shape1 A = 0).
Proof.
  intros [Hrows Hcols]. unfold entry.
  destruct (rows A) as [|r rs] eqn:Hr; cbn in *.
  - split; [by left | done].
  - apply Forall_cons_1 in Hcols as [Hlen _].
    destruct r as [|x r]; cbn in *; split; try done.
    + intros _. by right.
    + intros [?|?]; lia.
Qed.
End collector_extras.

(** The effective resistance is read at [[0][0]]: for a well-formed
    evaluated array the read raises exactly when one of its dimensions is
    zero, the exception is then [IndexError], and the globals of the plots
    are not built. *)
Theorem R_cc_raises_on_empty_evaluation `{Scalar F}
    (evaluated : array2 F) (V_terminal I_total : F → F) (scale U_p U_n : F)
    (potentials_var : F → F → F) :
  array2_wf evaluated →
  (Potentials.R_cc_of evaluated = Raise IndexError
   ↔ shape0 evaluated = 0 ∨ shape1 evaluated = 0)
  ∧ (∀ e, Potentials.R_cc_of evaluated = Raise e → e = IndexError)
  ∧ (Potentials.globals_at_potential_plots evaluated V_terminal I_total
       scale U_p U_n potentials_var = Raise IndexError
     ↔ shape0 evaluated = 0 ∨ shape1 evaluated = 0).
Proof.
  intros Hwf. pose proof (entry_zero_wf evaluated Hwf) as Hz.
  unfold Potentials.globals_at_potential_plots, Potentials.R_cc_of.
  destruct (entry evaluated 0 0) as [R|]; cbn.
  - repeat split; try done; intros Hs; apply Hz in Hs; done.
  - repeat split; try done.
    + intros _. by apply Hz.
    + by intros e [= <-].
    + intros _. by apply Hz.
Qed.

(** ** Further properties of the cut-off restriction *)
Section cutoff_extras.
Import DischargeCurve.
Context `{Scalar F}.
Implicit Types (V : F → F) (c : F) (time : list F).

Lemma restrict_time_take V c time :
  restrict_time CasadiSolver V c time
  = take (count_true (above_cutoff (sample0 V time) c)) time.
Proof.
  unfold restrict_time, voltage_OK. rewrite length_bool_index; [done|].
  unfold above_cutoff. by rewrite length_fmap.
Qed.

Lemma count_true_all_above V c time :
  Forall (λ t, s_gtb (V t) c = true) time →
  count_true (above_cutoff (sample0 V time) c) = length time.
Proof.
  unfold above_cutoff, sample0.
  induction 1 as [|t time Ht _ IH]; csimpl; [done|]. by rewrite Ht, IH.
Qed.

Lemma count_true_none_above V c time :
  Forall (λ t, s_gtb (V t) c = false) time →
  count_true (above_cutoff (sample0 V time) c) = 0.
Proof.
  unfold above_cutoff, sample0.
  induction 1 as [|t time Ht _ IH]; csimpl; [done|]. by rewrite Ht, IH.
Qed.

Lemma all_below_Forall V c time :
  forallb negb (above_cutoff (sample0 V time) c) = true →
  Forall (λ t, s_gtb (V t) c = false) time.
Proof.
  unfold above_cutoff, sample0.
  induction time as [|t time IH]; csimpl; [constructor|].
  intros [Ht Hrest]%andb_prop. constructor; [|by apply IH].
  by destruct (s_gtb (V t) c).
Qed.

Lemma never_recovers_split V c time :
  never_recovers (above_cutoff (sample0 V time) c) = true →
  Forall (λ t, s_gtb (V t) c = true)
         (take (count_true (above_cutoff (sample0 V time) c)) time)
  ∧ Forall (λ t, s_gtb (V t) c = false)
           (drop (count_true (above_cutoff (sample0 V time) c)) time).
Proof.
  induction time as [|t time IH]; [by split; constructor|].
  unfold above_cutoff, sample0 in *. csimpl.
  destruct (s_gtb (V t) c) eqn:Ht; csimpl; intros Hnr.
  - destruct (IH Hnr) as [IH1 IH2]. split; [by constructor | done].
  - pose proof (all_below_Forall V c time Hnr) as Hall.
    unfold above_cutoff, sample0 in *.
    rewrite (all_below_count _ Hnr). csimpl. split; [constructor|].
    by constructor.
Qed.
End cutoff_extras.

(** The restricted time vector is always a prefix of the solution's times;
    it is the whole vector when every sample is above the cut-off and empty
    when none is; a solver other than the Casadi one leaves the times
    untouched. *)
Theorem restricted_time_is_prefix `{Scalar F}
    (terminal_voltage : F → F) (V_cutoff : F) (time : list F) :
  let restricted :=
    DischargeCurve.restrict_time DischargeCurve.CasadiSolver
      terminal_voltage V_cutoff time in
  restricted `prefix_of` time
  ∧ length restricted ≤ length time
  ∧ (Forall (λ t, s_gtb (terminal_voltage t) V_cutoff = true) time →
     restricted = time)
  ∧ (Forall (λ t, s_gtb (terminal_voltage t) V_cutoff = false) time →
     restricted = [])
  ∧ DischargeCurve.restrict_time DischargeCurve.OtherSolver
      terminal_voltage V_cutoff time = time.
Proof.
  intros restricted. subst restricted. rewrite restrict_time_take.
  repeat split.
  - eexists. symmetry. apply take_drop.
  - rewrite length_take. lia.
  - intros Hall. rewrite count_true_all_above by done. by rewrite take_ge.
  - intros Hnone. by rewrite count_true_none_above.
Qed.

(** When the voltage never comes back above the cut-off once it has been
    at or below it, the restriction keeps exactly the samples above the
    cut-off: every kept time has its voltage above, every dropped time has
    it at or below. *)
Theorem restriction_keeps_the_samples_above `{Scalar F}
    (terminal_voltage : F → F) (V_cutoff : F) (time : list F) :
  DischargeCurve.never_recovers
    (DischargeCurve.above_cutoff (sample0 terminal_voltage time) V_cutoff)
  = true →
  let restricted :=
    DischargeCurve.restrict_time DischargeCurve.CasadiSolver
      terminal_voltage V_cutoff time in
  Forall (λ t, s_gtb (terminal_voltage t) V_cutoff = true) restricted
  ∧ Forall (λ t, s_gtb (terminal_voltage t) V_cutoff = false)
           (drop (length restricted) time).
Proof.
  intros Hnr restricted. subst restricted. rewrite restrict_time_take.
  destruct (never_recovers_split terminal_voltage V_cutoff time Hnr)
    as [Hkept Hdropped].
  split; [done|]. rewrite length_take.
  rewrite Nat.min_l; [done|].
  etrans; [apply count_true_le|].
  unfold DischargeCurve.above_cutoff, sample0. by rewrite !length_fmap.
Qed.

(** Under the same condition the restriction is idempotent: restricting the
    restricted times again changes nothing. *)
Theorem restriction_is_idempotent `{Scalar F}
    (terminal_voltage : F → F) (V_cutoff : F) (time : list F) :
  DischargeCurve.never_recovers
    (DischargeCurve.above_cutoff (sample0 terminal_voltage time) V_cutoff)
  = true →
  DischargeCurve.restrict_time DischargeCurve.CasadiSolver
    terminal_voltage V_cutoff
    (DischargeCurve.restrict_time DischargeCurve.CasadiSolver
       terminal_voltage V_cutoff time)
  = DischargeCurve.restrict_time DischargeCurve.CasadiSolver
      terminal_voltage V_cutoff time.
Proof.
  intros Hnr.
  destruct (never_recovers_split terminal_voltage V_cutoff time Hnr)
    as [Hkept _].
  rewrite (restrict_time_take terminal_voltage V_cutoff time).
  rewrite restrict_time_take.
  rewrite (count_true_all_above _ _ _ Hkept). by rewrite take_ge.
Qed.

(** ** The curves of the discharge plot *)
Section discharge_plot.
Import Scipy DischargeCurve DischargePlot.
Context `{Scalar F}.
Variable spline : kind → list F → list F → F → F.

Lemma stride_aux_lookup {A} (step wait : nat) (l : list A) (i : nat) :
  0 < step → stride_aux step wait l !! i = l !! (wait + i * step).
Proof.
  intros Hstep. revert wait i.
  induction l as [|x l IH]; intros wait i; [done|].
  destruct wait as [|w]; cbn [stride_aux].
  - destruct i as [|i]; [done|]. cbn [lookup list_lookup].
    rewrite IH. replace (0 + S i * step) with (S (step - 1 + i * step)) by lia.
    done.
  - rewrite IH. done.
Qed.

Lemma stride_aux_fmap {A B} (f : A → B) (step wait : nat) (l : list A) :
  stride_aux step wait (f <$> l) = f <$> stride_aux step wait l.
Proof.
  revert wait. induction l as [|x l IH]; intros wait; [done|].
  destruct wait as [|w]; csimpl; by rewrite IH.
Qed.

Lemma existsb_stride_aux {A} (p : A → bool) (step wait : nat) (l : list A) :
  existsb p l = false → existsb p (stride_aux step wait l) = false.
Proof.
  revert wait. induction l as [|x l IH]; intros wait; [done|].
  cbn [existsb]. intros [Hx Hl]%orb_false_elim.
  destruct wait as [|w]; cbn [stride_aux existsb]; [rewrite Hx|]; by apply IH.
Qed.

Lemma existsb_take {A} (p : A → bool) (n : nat) (l : list A) :
  existsb p l = false → existsb p (take n l) = false.
Proof.
  revert n. induction l as [|x l IH]; intros [|n]; try done.
  cbn [existsb take]. intros [Hx Hl]%orb_false_elim.
  rewrite Hx. by apply IH.
Qed.

Lemma outcome_interp1d_vec (k : kind) (x y x_new : list F) :
  outcome (interp1d_vec spline k x y x_new)
  = if decide (length y ≠ length x) then Raise ValueError
    else if decide (length x < min_entries k) then Raise ValueError
    else if repeated_knots x then Raise ValueError
    else if existsb (out_of_bounds x) x_new then Raise ValueError
    else Ok (spline k x y <$> x_new).
Proof.
  unfold interp1d_vec. cbn. repeat case_decide; try done.
  destruct (repeated_knots x); [done|].
  by destruct (existsb _ _).
Qed.

(** What a successful reference interpolation tells about its inputs. *)
Lemma comsol_voltage_Ok (comsol_t data : list F) (tau : F) (time v : list F) :
  outcome (comsol_voltage spline comsol_t data tau time) = Ok v →
  length data = length comsol_t
  ∧ 4 ≤ length comsol_t
  ∧ repeated_knots comsol_t = false
  ∧ existsb (out_of_bounds comsol_t) ((λ t, t ⊗ tau) <$> time) = false
  ∧ v = (λ t, spline Cubic comsol_t data (t ⊗ tau)) <$> time.
Proof.
  unfold comsol_voltage. rewrite outcome_interp1d_vec.
  repeat case_decide; try done.
  destruct (repeated_knots comsol_t); [done|].
  destruct (existsb _ _); [done|]. intros [= <-].
  repeat split; try done.
  - unfold DischargeCurve.interp_kind, min_entries in *. cbn in *. lia.
  - by rewrite <- list_fmap_compose.
Qed.

Lemma comsol_voltage_in_range (comsol_t data : list F) (tau : F)
    (time : list F) :
  length data = length comsol_t → 4 ≤ length comsol_t →
  repeated_knots comsol_t = false →
  existsb (out_of_bounds comsol_t) ((λ t, t ⊗ tau) <$> time) = false →
  outcome (comsol_voltage spline comsol_t data tau time)
  = Ok ((λ t, spline Cubic comsol_t data (t ⊗ tau)) <$> time).
Proof.
  intros Hlen H4 Hrep Hin. unfold comsol_voltage.
  rewrite outcome_interp1d_vec, Hrep.
  rewrite decide_False by (intros Hne; by apply Hne).
  rewrite decide_False
    by (unfold DischargeCurve.interp_kind, min_entries; cbn; lia).
  rewrite Hin. by rewrite <- list_fmap_compose.
Qed.
End discharge_plot.

(** The extended slice [l[0::step]] keeps the entries at the multiples of
    the step: its entry [i] is entry [i * step] of [l]; a step of zero
    raises.  Slicing commutes with sampling a series entry by entry. *)
Theorem stride_keeps_every_step_th_entry {A B : Type}
    (f : A → B) (step : nat) (l : list A) :
  (step = 0 → DischargePlot.stride step l = Raise ValueError)
  ∧ (0 < step →
     ∃ m, DischargePlot.stride step l = Ok m
          ∧ (∀ i, m !! i = l !! (i * step))
          ∧ DischargePlot.stride step (f <$> l) = Ok (f <$> m)).
Proof.
  unfold DischargePlot.stride. split.
  - intros ->. done.
  - intros Hstep. rewrite !decide_False by lia. eexists. split; [done|].
    split.
    + intros i. rewrite stride_aux_lookup by lia. done.
    + by rewrite stride_aux_fmap.
Qed.

(** The reference markers of the discharge plot: whenever the reference
    voltage can be interpolated at all the plotted times, it can be at every
    25th of them, and the markers are then every 25th point of the full
    reference curve against every 25th discharge capacity; abscissae and
    ordinates are equally many. *)
Theorem comsol_markers_subsample_the_curve `{Scalar F}
    (spline : Scipy.kind → list F → list F → F → F)
    (comsol_t data : list F) (tau : F) (discharge_capacity : F → F)
    (time v : list F) :
  Scipy.outcome (DischargeCurve.comsol_voltage spline comsol_t data tau time)
  = Ok v →
  ∃ xs ys,
    Scipy.outcome (DischargePlot.comsol_markers spline comsol_t data tau
                     discharge_capacity time) = Ok (xs, ys)
    ∧ length xs = length ys
    ∧ ∀ i, xs !! i = discharge_capacity <$> time !! (i * 25)
           ∧ ys !! i = v !! (i * 25).
Proof.
  intros Hv.
  destruct (comsol_voltage_Ok spline _ _ _ _ _ Hv)
    as (Hlen & H4 & Hrep & Hin & ->).
  exists (discharge_capacity <$> DischargePlot.stride_aux 25 0 time).
  exists ((λ t, spline Scipy.Cubic comsol_t data (t ⊗ tau))
            <$> DischargePlot.stride_aux 25 0 time).
  split; [|split].
  - unfold DischargePlot.comsol_markers, DischargePlot.stride,
      DischargePlot.dis_cap, sample0.
    rewrite !decide_False by lia. rewrite stride_aux_fmap.
    rewrite outcome_bind. cbn [Scipy.outcome Scipy.t_lift snd].
    rewrite outcome_bind. cbn [Scipy.outcome Scipy.t_lift snd].
    rewrite outcome_bind.
    rewrite (comsol_voltage_in_range spline comsol_t data tau
               (DischargePlot.stride_aux 25 0 time) Hlen H4 Hrep).
    + done.
    + rewrite <- stride_aux_fmap. by apply existsb_stride_aux.
  - by rewrite !length_fmap.
  - intros i. rewrite !list_lookup_fmap, stride_aux_lookup by lia.
    done.
Qed.

(** The voltage-difference curve after the cut-off restriction: whenever the
    reference voltage can be interpolated at all the solution times, it can
    be at the restricted ones, the subtraction does not raise, and the curve
    has one entry per restricted time, the absolute difference of the
    simulated and the interpolated reference voltage there. *)
Theorem voltage_difference_after_restriction `{Scalar F}
    (spline : Scipy.kind → list F → list F → F → F)
    (comsol_t data : list F) (tau : F) (terminal_voltage : F → F)
    (V_cutoff : F) (time v : list F) :
  Scipy.outcome (DischargeCurve.comsol_voltage spline comsol_t data tau time)
  = Ok v →
  let restricted :=
    DischargeCurve.restrict_time DischargeCurve.CasadiSolver
      terminal_voltage V_cutoff time in
  Scipy.outcome (DischargePlot.voltage_difference spline comsol_t data tau
                   terminal_voltage restricted)
  = Ok ((λ t, s_abs (terminal_voltage t
                     ⊖ spline Scipy.Cubic comsol_t data (t ⊗ tau)))
          <$> restricted).
Proof.
  intros Hv restricted.
  destruct (comsol_voltage_Ok spline _ _ _ _ _ Hv)
    as (Hlen & H4 & Hrep & Hin & _).
  assert (existsb (Scipy.out_of_bounds comsol_t)
            ((λ t, t ⊗ tau) <$> restricted) = false) as Hin'.
  { subst restricted. rewrite restrict_time_take, fmap_take.
    by apply existsb_take. }
  unfold DischargePlot.voltage_difference. rewrite outcome_bind.
  rewrite (comsol_voltage_in_range spline comsol_t data tau restricted
             Hlen H4 Hrep Hin').
  cbn [Scipy.outcome Scipy.t_lift snd].
  unfold DischargePlot.np_abs_sub, DischargePlot.pybamm_voltage, sample0.
  rewrite decide_True by (by rewrite !length_fmap).
  f_equal.
  apply (zip_with_fmap_diag (λ x y, s_abs (x ⊖ y)) terminal_voltage
           (λ t, spline Scipy.Cubic comsol_t data (t ⊗ tau))).
Qed.

(** ** Further properties of the COMSOL adapter *)
Section adapter_extras.
Import Scipy ComsolAdapter.
Context {F : Type}.
Variable data : comsol_data F.

Lemma select_comsol_x_None (domain : list string) :
  domain ≠ ["negative electrode"] → domain ≠ ["separator"] →
  domain ≠ ["positive electrode"] → domain ≠ whole_cell →
  select_comsol_x data domain = Ok None.
Proof.
  intros Hn Hs Hp Hw. unfold select_comsol_x.
  by rewrite !decide_False by done.
Qed.

Lemma select_comsol_x_missing (domain : list string) (key : string) :
  (domain = ["negative electrode"] ∧ key = "x_n")
  ∨ (domain = ["separator"] ∧ key = "x_s")
  ∨ (domain = ["positive electrode"] ∧ key = "x_p")
  ∨ (domain = whole_cell ∧ key = "x") →
  cv_coords data !! key = None →
  select_comsol_x data domain = Raise KeyError.
Proof.
  unfold select_comsol_x, whole_cell.
  intros [[-> ->]|[[-> ->]|[[-> ->]|[-> ->]]]] Hkey;
    repeat case_decide; try done; by rewrite Hkey.
Qed.
End adapter_extras.

(** What a built adapter guarantees.  If [get_interp_fun] returns a
    function, then the variable is in the reference data, the domain is one
    for which reference coordinates were selected, the mesh call succeeded,
    the field has one row per reference node, there are at least four
    reference nodes and no two of them are equal, and every simulation
    position, scaled by [L_x], lies within the reference nodes.  The function
    holds the remapped field, the domain, and the name with [_comsol]
    appended. *)
Theorem built_adapter_requirements `{Scalar F}
    (spline : Scipy.kind → list F → list F → F → F)
    (data : ComsolAdapter.comsol_data F)
    (mesh : list string → result (ComsolAdapter.submesh F)) (L_x : F)
    (name : string) (domain : list string) (eval_on_edges : bool)
    (fn : ComsolAdapter.pybamm_function F) :
  Scipy.outcome (ComsolAdapter.get_interp_fun spline data mesh L_x
                   name domain eval_on_edges) = Ok fn →
  ∃ variable comsol_x sub,
    ComsolAdapter.cv_fields data !! name = Some variable
    ∧ ComsolAdapter.select_comsol_x data domain = Ok (Some comsol_x)
    ∧ mesh domain = Ok sub
    ∧ shape0 variable = length comsol_x
    ∧ 4 ≤ length comsol_x
    ∧ Scipy.repeated_knots comsol_x = false
    ∧ existsb (Scipy.out_of_bounds comsol_x)
        ((λ x, x ⊗ L_x) <$> (if eval_on_edges then ComsolAdapter.edges sub
                             else ComsolAdapter.nodes sub)) = false
    ∧ fn = ComsolAdapter.PybammFunction
             (ComsolAdapter.remapped spline comsol_x variable
                ((λ x, x ⊗ L_x)
                   <$> (if eval_on_edges then ComsolAdapter.edges sub
                        else ComsolAdapter.nodes sub)))
             domain (name +:+ "_comsol").
Proof.
  rewrite get_interp_fun_cases. unfold ComsolAdapter.select_pybamm_x.
  destruct (ComsolAdapter.cv_fields data !! name) as [variable|]; [|done].
  destruct (ComsolAdapter.select_comsol_x data domain) as [[comsol_x|]|e];
    destruct (mesh domain) as [sub|e']; cbn; try done.
  repeat case_decide; try done.
  destruct (Scipy.repeated_knots comsol_x) eqn:Hrep; [done|].
  destruct (existsb _ _) eqn:Hin; [done|]. intros [= <-].
  exists variable, comsol_x, sub. repeat split; try done; lia.
Qed.

(** How [get_interp_fun] fails before it interpolates.  A variable missing
    from the reference data raises [KeyError].  With the variable present, a
    known domain whose coordinates are missing from the data raises
    [KeyError] without the mesh being consulted; a failure of the mesh call
    is passed on as it is; and a domain that is none of the four known ones,
    on a mesh that accepts it, raises [UnboundLocalError].  In all these
    cases nothing has been interpolated; whatever the outcome, at most one
    interpolation has run. *)
Theorem adapter_failure_modes `{Scalar F}
    (spline : Scipy.kind → list F → list F → F → F)
    (data : ComsolAdapter.comsol_data F)
    (mesh : list string → result (ComsolAdapter.submesh F)) (L_x : F)
    (name : string) (domain : list string) (eval_on_edges : bool) :
  let built := ComsolAdapter.get_interp_fun spline data mesh L_x
                 name domain eval_on_edges in
  (ComsolAdapter.cv_fields data !! name = None → built = ([], Raise KeyError))
  ∧ (∀ key,
       is_Some (ComsolAdapter.cv_fields data !! name) →
       (domain = ["negative electrode"] ∧ key = "x_n")
       ∨ (domain = ["separator"] ∧ key = "x_s")
       ∨ (domain = ["positive electrode"] ∧ key = "x_p")
       ∨ (domain = ComsolAdapter.whole_cell ∧ key = "x") →
       ComsolAdapter.cv_coords data !! key = None →
       built = ([], Raise KeyError))
  ∧ (∀ cx e,
       is_Some (ComsolAdapter.cv_fields data !! name) →
       ComsolAdapter.select_comsol_x data domain = Ok cx →
       mesh domain = Raise e →
       built = ([], Raise e))
  ∧ (∀ sub,
       is_Some (ComsolAdapter.cv_fields data !! name) →
       domain ≠ ["negative electrode"] → domain ≠ ["separator"] →
       domain ≠ ["positive electrode"] →
       domain ≠ ComsolAdapter.whole_cell →
       mesh domain = Ok sub →
       built = ([], Raise UnboundLocalError))
  ∧ length (Scipy.trace built) ≤ 1.
Proof.
  intros built. subst built. rewrite get_interp_fun_cases.
  unfold ComsolAdapter.select_pybamm_x.
  split; [by intros ->|].
  split.
  { intros key [variable ->] Hdom Hkey.
    by rewrite (select_comsol_x_missing data domain key Hdom Hkey). }
  split.
  { intros cx e [variable ->] -> ->. by destruct cx. }
  split.
  { intros sub [variable ->] Hn Hs Hp Hw ->.
    by rewrite (select_comsol_x_None data domain Hn Hs Hp Hw). }
  destruct (ComsolAdapter.cv_fields data !! name) as [variable|]; [|cbn; lia].
  destruct (ComsolAdapter.select_comsol_x data domain) as [[comsol_x|]|e];
    destruct (mesh domain) as [sub|e']; cbn; lia.
Qed.

Section adapter_shapes.
Import Scipy ComsolAdapter.
Context `{Scalar F}.
Variable spline : kind → list F → list F → F → F.

Lemma remapped_wf (comsol_x : list F) (variable : array2 F) (pybamm_x : list F) :
  array2_wf (remapped spline comsol_x variable pybamm_x).
Proof.
  split; cbn [remapped rows shape0 shape1].
  - by rewrite length_fmap.
  - apply Forall_fmap, Forall_forall. intros q _. cbn.
    by rewrite length_fmap, length_seq.
Qed.

Lemma newaxis_col_wf (a : list F) : array2_wf (newaxis_col a).
Proof.
  split; cbn [newaxis_col rows shape0 shape1].
  - by rewrite length_fmap.
  - apply Forall_fmap, Forall_forall. by intros x _.
Qed.

Lemma built_variable (data : comsol_data F)
    (mesh : list string → result (submesh F)) (L_x : F)
    (name : string) (domain : list string) (eval_on_edges : bool)
    (fn : pybamm_function F) :
  outcome (get_interp_fun spline data mesh L_x name domain eval_on_edges)
  = Ok fn →
  ∃ variable comsol_x sub,
    cv_fields data !! name = Some variable
    ∧ mesh domain = Ok sub
    ∧ fn_variable fn
      = remapped spline comsol_x variable
          ((λ x, x ⊗ L_x) <$> (if eval_on_edges then edges sub else nodes sub)).
Proof.
  rewrite get_interp_fun_cases. unfold select_pybamm_x.
  destruct (cv_fields data !! name) as [variable|]; [|done].
  destruct (select_comsol_x data domain) as [[comsol_x|]|e];
    destruct (mesh domain) as [sub|e']; cbn; try done.
  repeat case_decide; try done.
  destruct (repeated_knots comsol_x); [done|].
  destruct (existsb _ _); [done|]. intros [= <-].
  by exists variable, comsol_x, sub.
Qed.
End adapter_shapes.

(** The shapes the adapter works with.  A function that was built holds a
    well-formed array with one row per simulation node, or per edge when
    [eval_on_edges] is set, and one column per column of the reference
    field; every query that succeeds returns a well-formed column, with one
    row per node (or edge) and a single column. *)
Theorem adapter_shapes `{Scalar F}
    (spline : Scipy.kind → list F → list F → F → F)
    (data : ComsolAdapter.comsol_data F)
    (mesh : list string → result (ComsolAdapter.submesh F)) (L_x tau : F)
    (name : string) (domain : list string) (eval_on_edges : bool)
    (fn : ComsolAdapter.pybamm_function F) :
  Scipy.outcome (ComsolAdapter.get_interp_fun spline data mesh L_x
                   name domain eval_on_edges) = Ok fn →
  ∃ variable sub,
    ComsolAdapter.cv_fields data !! name = Some variable
    ∧ mesh domain = Ok sub
    ∧ let points := if eval_on_edges then ComsolAdapter.edges sub
                    else ComsolAdapter.nodes sub in
      array2_wf (ComsolAdapter.fn_variable fn)
      ∧ shape0 (ComsolAdapter.fn_variable fn) = length points
      ∧ shape1 (ComsolAdapter.fn_variable fn) = shape1 variable
      ∧ ∀ (t : F) (r : array2 F),
          Scipy.outcome (ComsolAdapter.evaluate spline data tau fn t) = Ok r →
          array2_wf r ∧ shape0 r = length points ∧ shape1 r = 1.
Proof.
  intros Hbuilt.
  destruct (built_variable spline data mesh L_x name domain eval_on_edges
              fn Hbuilt) as (variable & comsol_x & sub & Hvar & Hmesh & Hfn).
  exists variable, sub. split; [done|]. split; [done|]. intros points.
  rewrite Hfn. split; [apply remapped_wf|].
  split; [by cbn; rewrite length_fmap|]. split; [done|].
  intros t r. unfold ComsolAdapter.evaluate. rewrite outcome_myinterp, Hfn.
  repeat case_decide; try done.
  destruct (Scipy.repeated_knots _); [done|].
  destruct (Scipy.out_of_bounds _ _); [done|]. intros [= <-].
  split; [apply newaxis_col_wf|]. split; [|done].
  cbn. by rewrite !length_fmap.
Qed.

(** ** The further properties, applied to concrete runs *)
Section further_runs.
Open Scope Z_scope.

Lemma R_cc_raises_on_empty_evaluation_witness :
  array2_wf (Array2 0 1 ([] : list (list Z)))
  ∧ Potentials.R_cc_of (Array2 0 1 ([] : list (list Z))) = Raise IndexError.
Proof.
  assert (array2_wf (Array2 0 1 ([] : list (list Z)))) as Hwf
    by (split; [reflexivity | constructor]).
  split; [exact Hwf|].
  apply (proj1 (R_cc_raises_on_empty_evaluation
                  (Array2 0 1 []) (λ t, t) (λ t, t) 1 1 1 (λ t z, t) Hwf)).
  left. reflexivity.
Defined.

Lemma restriction_keeps_the_samples_above_witness :
  DischargeCurve.never_recovers
    (DischargeCurve.above_cutoff (sample0 (λ t, 10 - t) [0; 1; 2; 3]) 8) = true
  ∧ Forall (λ t, s_gtb (10 - t) 8 = true)
      (DischargeCurve.restrict_time DischargeCurve.CasadiSolver
         (λ t, 10 - t) 8 [0; 1; 2; 3]).
Proof.
  split; [reflexivity|].
  exact (proj1 (restriction_keeps_the_samples_above
                  (λ t, 10 - t) 8 [0; 1; 2; 3] eq_refl)).
Defined.

Lemma restriction_is_idempotent_witness :
  DischargeCurve.never_recovers
    (DischargeCurve.above_cutoff (sample0 (λ t, 10 - t) [0; 1; 2; 3]) 8) = true
  ∧ DischargeCurve.restrict_time DischargeCurve.CasadiSolver (λ t, 10 - t) 8
      (DischargeCurve.restrict_time DischargeCurve.CasadiSolver
         (λ t, 10 - t) 8 [0; 1; 2; 3])
    = DischargeCurve.restrict_time DischargeCurve.CasadiSolver
        (λ t, 10 - t) 8 [0; 1; 2; 3].
Proof.
  split; [reflexivity|].
  exact (restriction_is_idempotent (λ t, 10 - t) 8 [0; 1; 2; 3] eq_refl).
Defined.

(** Without the condition the restriction is not idempotent: a voltage that
    comes back above the cut-off loses one more time on the second pass. *)
Example restriction_twice_shrinks_further :
  let V t := match t with 0 => 10 | 1 => 7 | _ => 9 end in
  DischargeCurve.restrict_time DischargeCurve.CasadiSolver V 8 [0; 1; 2]
  = [0; 1]
  ∧ DischargeCurve.restrict_time DischargeCurve.CasadiSolver V 8 [0; 1] = [0].
Proof. split; reflexivity. Qed.

Lemma stride_keeps_every_step_th_entry_witness :
  (0 < 2)%nat
  ∧ ∃ m, DischargePlot.stride 2 [10; 11; 12; 13; 14] = Ok m
         ∧ (∀ i, m !! i = [10; 11; 12; 13; 14] !! (i * 2)%nat)
         ∧ DischargePlot.stride 2 (Z.succ <$> [10; 11; 12; 13; 14])
           = Ok (Z.succ <$> m).
Proof.
  assert (0 < 2)%nat as Hpos by lia.
  split; [exact Hpos|].
  exact (proj2 (stride_keeps_every_step_th_entry
                  Z.succ 2 [10; 11; 12; 13; 14]) Hpos).
Defined.

Lemma comsol_markers_subsample_the_curve_witness :
  Scipy.outcome
    (DischargeCurve.comsol_voltage Runs.first_knot_value
       [0; 10; 20; 30] [4; 3; 2; 1] 10 [0; 1; 2; 3]) = Ok [4; 4; 4; 4]
  ∧ ∃ xs ys,
      Scipy.outcome
        (DischargePlot.comsol_markers Runs.first_knot_value
           [0; 10; 20; 30] [4; 3; 2; 1] 10 (λ t, 7 * t) [0; 1; 2; 3])
      = Ok (xs, ys)
      ∧ length xs = length ys
      ∧ ∀ i, xs !! i = (λ t, 7 * t) <$> [0; 1; 2; 3] !! (i * 25)%nat
             ∧ ys !! i = [4; 4; 4; 4] !! (i * 25)%nat.
Proof.
  assert (Scipy.outcome
            (DischargeCurve.comsol_voltage Runs.first_knot_value
               [0; 10; 20; 30] [4; 3; 2; 1] 10 [0; 1; 2; 3])
          = Ok [4; 4; 4; 4]) as Hv by reflexivity.
  split; [exact Hv|].
  exact (comsol_markers_subsample_the_curve Runs.first_knot_value
           [0; 10; 20; 30] [4; 3; 2; 1] 10 (λ t, 7 * t) [0; 1; 2; 3]
           [4; 4; 4; 4] Hv).
Defined.

Lemma voltage_difference_after_restriction_witness :
  Scipy.outcome
    (DischargeCurve.comsol_voltage Runs.first_knot_value
       [0; 10; 20; 30] [4; 3; 2; 1] 10 [0; 1; 2; 3]) = Ok [4; 4; 4; 4]
  ∧ Scipy.outcome
      (DischargePlot.voltage_difference Runs.first_knot_value
         [0; 10; 20; 30] [4; 3; 2; 1] 10 (λ t, 10 - t)
         (DischargeCurve.restrict_time DischargeCurve.CasadiSolver
            (λ t, 10 - t) 8 [0; 1; 2; 3]))
    = Ok [6; 5].
Proof.
  assert (Scipy.outcome
            (DischargeCurve.comsol_voltage Runs.first_knot_value
               [0; 10; 20; 30] [4; 3; 2; 1] 10 [0; 1; 2; 3])
          = Ok [4; 4; 4; 4]) as Hv by reflexivity.
  split; [exact Hv|].
  exact (voltage_difference_after_restriction Runs.first_knot_value
           [0; 10; 20; 30] [4; 3; 2; 1] 10 (λ t, 10 - t) 8 [0; 1; 2; 3]
           [4; 4; 4; 4] Hv).
Defined.

Lemma built_adapter_requirements_witness :
  Scipy.outcome
    (ComsolAdapter.get_interp_fun Runs.first_knot_value Runs.four_nodes
       Runs.mesh Runs.L_x "phi_n" ["negative electrode"] false)
  = Ok (ComsolAdapter.PybammFunction
          (Array2 2 4 [[1; 2; 3; 4]; [1; 2; 3; 4]])
          ["negative electrode"] "phi_n_comsol")
  ∧ ∃ comsol_x,
      ComsolAdapter.select_comsol_x Runs.four_nodes ["negative electrode"]
      = Ok (Some comsol_x)
      ∧ (4 ≤ length comsol_x)%nat
      ∧ Scipy.repeated_knots comsol_x = false.
Proof.
  assert (Scipy.outcome
            (ComsolAdapter.get_interp_fun Runs.first_knot_value Runs.four_nodes
               Runs.mesh Runs.L_x "phi_n" ["negative electrode"] false)
          = Ok (ComsolAdapter.PybammFunction
                  (Array2 2 4 [[1; 2; 3; 4]; [1; 2; 3; 4]])
                  ["negative electrode"] "phi_n_comsol")) as Hbuilt
    by (vm_compute; reflexivity).
  split; [exact Hbuilt|].
  destruct (built_adapter_requirements Runs.first_knot_value Runs.four_nodes
              Runs.mesh Runs.L_x "phi_n" ["negative electrode"] false _ Hbuilt)
    as (variable & comsol_x & sub & _ & Hsel & _ & _ & H4 & Hrep & _).
  exists comsol_x. split; [exact Hsel|]. split; [exact H4 | exact Hrep].
Defined.

Lemma adapter_shapes_witness :
  Scipy.outcome
    (ComsolAdapter.get_interp_fun Runs.first_knot_value Runs.four_nodes
       Runs.mesh Runs.L_x "phi_n" ["negative electrode"] true)
  = Ok (ComsolAdapter.PybammFunction
          (Array2 3 4 [[1; 2; 3; 4]; [1; 2; 3; 4]; [1; 2; 3; 4]])
          ["negative electrode"] "phi_n_comsol")
  ∧ array2_wf (Array2 3 4 [[1; 2; 3; 4]; [1; 2; 3; 4]; [1; 2; 3; 4]]).
Proof.
  assert (Scipy.outcome
            (ComsolAdapter.get_interp_fun Runs.first_knot_value Runs.four_nodes
               Runs.mesh Runs.L_x "phi_n" ["negative electrode"] true)
          = Ok (ComsolAdapter.PybammFunction
                  (Array2 3 4 [[1; 2; 3; 4]; [1; 2; 3; 4]; [1; 2; 3; 4]])
                  ["negative electrode"] "phi_n_comsol")) as Hbuilt
    by (vm_compute; reflexivity).
  split; [exact Hbuilt|].
  destruct (adapter_shapes Runs.first_knot_value Runs.four_nodes Runs.mesh
              Runs.L_x Runs.tau "phi_n" ["negative electrode"] true _ Hbuilt)
    as (variable & sub & _ & _ & Hshape).
  cbv zeta in Hshape. exact (proj1 Hshape).
Defined.
End further_runs.
